(** * The esbuild request adapter of @embroider/vite

    A shallow embedding of [packages/vite/src/esbuild-request.ts]: the
    process-wide status channel shared with the rollup resolver plugin
    ([requestStatus], [writeStatus], [readStatus]) and the
    [EsBuildRequestAdapter] class ([create], [notFoundResponse],
    [virtualResponse], [resolve]).

    The channel is a JavaScript [Map] stored in a property of [globalThis];
    it is modelled as a [gmap] behind an [option] (the property is
    [undefined] until the first use).  Code that reads or writes the channel
    is written in a small state-and-exception monad over that global. *)

From Stdlib Require Import Ascii String List Bool ZArith.
From stdpp Require Import base option strings gmap.

Import ListNotations.
Local Open Scope string_scope.

(** ** JavaScript values and operators

    [pluginData], [meta] and [packageJSON] are typed [any] (or as records of
    [any]) in the source.  They are modelled by a small universe of
    JavaScript values, enough to give [?.], [??], [!] and [||] the meaning
    they have on such operands. *)
Module Js.

#[warnings="-register-all"]
Inductive value : Type :=
| Undefined
| Null
| Bool (b : bool)
| Num (n : Z)
| Str (s : string)
| Obj (fields : list (string * value)).

(** [v == null]: the operands on which [?.] and [??] give up. *)
Definition nullish (v : value) : bool :=
  match v with
  | Undefined | Null => true
  | _ => false
  end.

(** ToBoolean.  Objects are always truthy; [NaN] is not a [Num] here. *)
Definition truthy (v : value) : bool :=
  match v with
  | Undefined | Null => false
  | Bool b => b
  | Num n => negb (n =? 0)%Z
  | Str s => negb (String.eqb s "")
  | Obj _ => true
  end.

Fixpoint assoc (k : string) (fields : list (string * value)) : value :=
  match fields with
  | [] => Undefined
  | (k', v) :: rest => if String.eqb k k' then v else assoc k rest
  end.

(** [v?.k] for a property [k] that no prototype defines. *)
Definition optchain (v : value) (k : string) : value :=
  match v with
  | Obj fields => assoc k fields
  | _ => Undefined
  end.

(** [a ?? b] *)
Definition coalesce (a b : value) : value :=
  if nullish a then b else a.

(** Truthiness of a [string] and of a [string | undefined]. *)
Definition truthy_string (s : string) : bool := negb (String.eqb s "").

Definition truthy_opt (o : option string) : bool :=
  match o with
  | Some s => truthy_string s
  | None => false
  end.

(** [a || b] where [a : string | undefined] and [b : string]. *)
Definition or_else (a : option string) (b : string) : string :=
  match a with
  | Some s => if truthy_string s then s else b
  | None => b
  end.

(** [s.startsWith(p)] *)
Definition startsWith (s p : string) : bool := String.prefix p s.

(** [s[0] !== c]: indexing the empty string gives [undefined]. *)
Definition first_char_differs (s : string) (c : ascii) : bool :=
  match s with
  | EmptyString => true
  | String c0 _ => negb (Ascii.eqb c0 c)
  end.

(** [s.replace(/\//g, '\\')] *)
Fixpoint backslashes (s : string) : string :=
  match s with
  | EmptyString => EmptyString
  | String c rest =>
      String (if Ascii.eqb c "/"%char then "\"%char else c) (backslashes rest)
  end.

End Js.

(** ** The shared channel *)
Module Channel.

(** [type InternalStatus] *)
Inductive InternalStatus : Type :=
| pending
| not_found
| found (filename : string).

#[global] Instance InternalStatus_eq_dec : EqDecision InternalStatus.
Proof. solve_decision. Defined.

Definition is_pending (s : InternalStatus) : bool :=
  match s with pending => true | _ => false end.

Definition is_not_found (s : InternalStatus) : bool :=
  match s with not_found => true | _ => false end.

(** The value of [globalThis.__embroider_vite_resolver_channel__]. *)
Definition Global : Type := option (gmap string InternalStatus).

(** The mapping the channel holds; no [Map] yet means no entry. *)
Definition entries (g : Global) : gmap string InternalStatus :=
  default ∅ g.

(** [sharedGlobalState()]: the [Map], created and stored on first use.
    The [Map] is returned by reference, so the functions below write their
    updated map back into the global. *)
Definition sharedGlobalState (g : Global)
  : gmap string InternalStatus * Global :=
  match g with
  | Some channel => (channel, Some channel)
  | None => (∅, Some ∅)
  end.

Definition requestStatus (id : string) (g : Global) : Global :=
  let '(channel, _) := sharedGlobalState g in
  Some (<[id := pending]> channel).

Definition writeStatus (id : string) (status : InternalStatus) (g : Global)
  : Global :=
  let '(channel, g') := sharedGlobalState g in
  match channel !! id with
  | Some s => if is_pending s then Some (<[id := status]> channel) else g'
  | None => g'
  end.

Definition readStatus (id : string) (g : Global) : InternalStatus * Global :=
  let '(channel, _) := sharedGlobalState g in
  let result := default pending (channel !! id) in
  (result, Some (delete id channel)).

End Channel.

(** ** The types of esbuild this file uses *)
Module Esbuild.

Inductive ImportKind : Type :=
| entry_point
| import_statement
| require_call
| dynamic_import
| require_resolve
| import_rule
| composes_from
| url_token.

(** A message of esbuild.  Only [text] is ever written here; [rest] stands
    for the fields this file neither reads nor writes (location, notes,
    detail and so on), [Js.Undefined] when there are none. *)
Record Message : Type := {
  text : string;
  rest : Js.value;
}.

(** The options [resolve] passes to [build.resolve]. *)
Module ResolveOptions.
Record t : Type := {
  importer : string;
  resolveDir : string;
  kind : ImportKind;
  pluginData : Js.value;
}.
End ResolveOptions.

(** What [build.resolve] answers: every field is present. *)
Module ResolveResult.
Record t : Type := {
  errors : list Message;
  warnings : list Message;
  path : string;
  external : bool;
  sideEffects : bool;
  namespace : string;
  suffix : string;
  pluginData : Js.value;
}.
End ResolveResult.

(** What an [onResolve] callback may answer: every field is optional
    ([pluginData] is [Js.Undefined] when left out). *)
Module OnResolveResult.
Record t : Type := {
  errors : option (list Message);
  warnings : option (list Message);
  path : option string;
  external : option bool;
  sideEffects : option bool;
  namespace : option string;
  suffix : option string;
  pluginData : Js.value;
}.

(** A [ResolveResult] used where an [OnResolveResult] is expected: the same
    object, every field present. *)
Definition of_resolved (r : ResolveResult.t) : t := {|
  errors := Some (ResolveResult.errors r);
  warnings := Some (ResolveResult.warnings r);
  path := Some (ResolveResult.path r);
  external := Some (ResolveResult.external r);
  sideEffects := Some (ResolveResult.sideEffects r);
  namespace := Some (ResolveResult.namespace r);
  suffix := Some (ResolveResult.suffix r);
  pluginData := ResolveResult.pluginData r;
|}.
End OnResolveResult.

(** The [PluginBuild] the adapter holds, of which only [resolve] is used.
    The call is awaited: while it runs, esbuild may enter the rollup
    resolver plugin, which calls [writeStatus], and other [resolve] calls of
    this adapter may run.  So the host resolver is a function of the global
    it finds to its answer and the global it leaves.  This is the host whose
    promise is fulfilled; [Fallible.PluginBuild.t] below is the host whose
    promise may be rejected. *)
Module PluginBuild.
Record t : Type := {
  resolve : string → ResolveOptions.t → Channel.Global →
            ResolveResult.t * Channel.Global;
}.
End PluginBuild.

End Esbuild.

(** ** The types of @embroider/core this file uses *)
Module Core.

Module VirtualResponse.
Record t : Type := {
  specifier : string;
}.

Definition to_js (v : t) : Js.value :=
  Js.Obj [("specifier", Js.Str (specifier v))].
End VirtualResponse.

Module ModuleRequest.
Record t : Type := {
  specifier : string;
  fromFile : string;
  meta : Js.value;
}.
End ModuleRequest.

(** [Resolution<OnResolveResult, OnResolveResult>]; [virtual] is
    [VirtualResponse | false]. *)
Inductive Resolution : Type :=
| not_found (err : Esbuild.OnResolveResult.t)
| found (filename : string) (result : Esbuild.OnResolveResult.t)
        (virtual : option VirtualResponse.t).

Definition is_not_found (r : Resolution) : bool :=
  match r with not_found _ => true | found _ _ _ => false end.

Module Package.
Record t : Type := {
  root : string;
  packageJSON : Js.value;
}.
End Package.

Module PackageCache.
Record t : Type := {
  ownerOfFile : string → option Package.t;
  appRoot : string;
}.
End PackageCache.

Inductive Phase : Type := bundling | other.

End Core.

(** ** What the module imports and does not define

    [cleanUrl] and [packageName] of @embroider/core, [externalName] of
    @embroider/reverse-exports, [dirname] of node's path module and
    [process.platform].

    Here, as in [PluginBuild.t] and [PackageCache.t] above, a collaborator
    is the function of its arguments to its answer: this is the adapter in
    the calls in which its collaborators answer.  A collaborator can also
    fail ([build.resolve] returns a promise, [externalName] throws on a
    manifest it cannot read); module [Fallible] below has the adapter with
    collaborators that may, and [resolve_of_answering] shows that it is this
    one when they do not. *)
Class Imports : Type := {
  cleanUrl : string → string;
  packageName : string → option string;
  externalName : Js.value → string → option string;
  dirname : string → string;
  platform : string;
}.

(** ** Computations over the global

    A function of this file reads and writes the global and ends by
    returning or by throwing. *)
Inductive JsError : Type :=
| TypeError (message : string)
| Error (message : string).

Inductive Completion (A : Type) : Type :=
| Normal (a : A)
| Throw (e : JsError).
Arguments Normal {A} a.
Arguments Throw {A} e.

Definition Eff (A : Type) : Type :=
  Channel.Global → Completion A * Channel.Global.

#[global] Instance Eff_ret : MRet Eff := λ A a g, (Normal a, g).

#[global] Instance Eff_bind : MBind Eff := λ A B f m g,
  match m g with
  | (Normal a, g') => f a g'
  | (Throw e, g') => (Throw e, g')
  end.

Definition throw {A : Type} (e : JsError) : Eff A := λ g, (Throw e, g).

(** A call that cannot throw. *)
Definition call {A : Type} (f : Channel.Global → A * Channel.Global) : Eff A :=
  λ g, let '(a, g') := f g in (Normal a, g').

(** A call made for its effect only. *)
Definition exec (f : Channel.Global → Channel.Global) : Eff unit :=
  λ g, (Normal tt, f g).

(** [o.field] where [o] may be [undefined]: reading a property of
    [undefined] throws a [TypeError]. *)
Definition member {A B : Type} (o : option A) (field : A → B) : Eff B :=
  match o with
  | Some a => mret (field a)
  | None => throw (TypeError "Cannot read properties of undefined")
  end.

(** [a === b] where [a : string | undefined] and [b : string]. *)
Definition strict_eq (a : option string) (b : string) : bool :=
  match a with
  | Some s => String.eqb s b
  | None => false
  end.

(** ** The adapter *)
Module EsBuildRequestAdapter.
Import Esbuild Core.

Record t : Type := {
  packageCache : PackageCache.t;
  phase : Phase;
  context : PluginBuild.t;
  kind : ImportKind;
}.

(** The argument of [create]. *)
Module CreateArgs.
Record t : Type := {
  packageCache : PackageCache.t;
  phase : Phase;
  build : PluginBuild.t;
  kind : ImportKind;
  path : string;
  importer : option string;
  pluginData : Js.value;
}.
End CreateArgs.

Module Created.
Record t : Type := {
  initialState : ModuleRequest.t;
  adapter : EsBuildRequestAdapter.t;
}.
End Created.

Section WithImports.
Context `{Imports}.

(** [pluginData?.embroider?.enableCustomResolver] *)
Definition enableCustomResolver (pluginData : Js.value) : Js.value :=
  Js.optchain (Js.optchain pluginData "embroider") "enableCustomResolver".

Definition create (args : CreateArgs.t) : option Created.t :=
  let path := CreateArgs.path args in
  let pluginData := CreateArgs.pluginData args in
  if negb (Js.truthy
             (Js.coalesce (enableCustomResolver pluginData) (Js.Bool true)))
  then None
  else
    match CreateArgs.importer args with
    | None => None
    | Some importer =>
        if Js.truthy_string path
           && Js.truthy_string importer
           && Js.first_char_differs path Ascii.zero
           && negb (Js.startsWith path "virtual-module:")
        then
          let fromFile := cleanUrl importer in
          let fromFile :=
            if String.eqb platform "win32" then Js.backslashes fromFile
            else fromFile in
          Some {|
            Created.initialState := {|
              ModuleRequest.specifier := path;
              ModuleRequest.fromFile := fromFile;
              ModuleRequest.meta :=
                Js.optchain (Js.optchain pluginData "embroider") "meta";
            |};
            Created.adapter := {|
              packageCache := CreateArgs.packageCache args;
              phase := CreateArgs.phase args;
              context := CreateArgs.build args;
              kind := CreateArgs.kind args;
            |};
          |}
        else None
    end.

Definition debugType (self : t) : string := "esbuild".

Definition notFoundResponse (self : t) (request : ModuleRequest.t)
  : Resolution :=
  not_found {|
    OnResolveResult.errors :=
      Some [ {| text := "module not found "
                          +:+ ModuleRequest.specifier request;
                rest := Js.Undefined |} ];
    OnResolveResult.warnings := None;
    OnResolveResult.path := None;
    OnResolveResult.external := None;
    OnResolveResult.sideEffects := None;
    OnResolveResult.namespace := None;
    OnResolveResult.suffix := None;
    OnResolveResult.pluginData := Js.Undefined;
  |}.

Definition virtualResponse (self : t) (_request : ModuleRequest.t)
    (virtual : VirtualResponse.t) : Resolution :=
  found (VirtualResponse.specifier virtual)
    {|
      OnResolveResult.errors := None;
      OnResolveResult.warnings := None;
      OnResolveResult.path := Some (VirtualResponse.specifier virtual);
      OnResolveResult.external := None;
      OnResolveResult.sideEffects := None;
      OnResolveResult.namespace := Some "embroider-virtual";
      OnResolveResult.suffix := None;
      OnResolveResult.pluginData :=
        Js.Obj [("virtual", VirtualResponse.to_js virtual)];
    |}
    (Some virtual).

(** The result the boundary policy answers with:
    [{ path: externalizedName, external: true }]. *)
Definition externalized (externalizedName : string) : OnResolveResult.t := {|
  OnResolveResult.errors := None;
  OnResolveResult.warnings := None;
  OnResolveResult.path := Some externalizedName;
  OnResolveResult.external := Some true;
  OnResolveResult.sideEffects := None;
  OnResolveResult.namespace := None;
  OnResolveResult.suffix := None;
  OnResolveResult.pluginData := Js.Undefined;
|}.

(** The options of the call to [build.resolve]. *)
Definition resolveOptions (self : t) (request : ModuleRequest.t)
  : ResolveOptions.t := {|
  ResolveOptions.importer := ModuleRequest.fromFile request;
  ResolveOptions.resolveDir := dirname (ModuleRequest.fromFile request);
  ResolveOptions.kind := kind self;
  ResolveOptions.pluginData :=
    Js.Obj [("embroider",
             Js.Obj [("enableCustomResolver", Js.Bool false);
                     ("meta", ModuleRequest.meta request)])];
|}.

(** [resolve].  The [return] inside the bundling branch is the [Some] of
    [early]; [None] there falls through to the code after the branch. *)
Definition resolve (self : t) (request : ModuleRequest.t) : Eff Resolution :=
  let specifier := ModuleRequest.specifier request in
  _ ← exec (Channel.requestStatus specifier);
  result ← call (PluginBuild.resolve (context self) specifier
                   (resolveOptions self request));
  status ← call (Channel.readStatus specifier);
  if (0 <? length (ResolveResult.errors result))%nat
     || Channel.is_not_found status
  then mret (not_found (OnResolveResult.of_resolved result))
  else
    early ←
      match phase self with
      | bundling =>
          let pkg :=
            PackageCache.ownerOfFile (packageCache self)
              (ResolveResult.path result) in
          if strict_eq (Package.root <$> pkg)
               (PackageCache.appRoot (packageCache self))
             && (String.eqb (ResolveResult.namespace result) "file"
                 || Js.startsWith (ResolveResult.namespace result)
                      "embroider-")
          then
            let externalizedName := specifier in
            externalizedName ←
              (if negb (Js.truthy_opt (packageName externalizedName))
               then
                 packageJSON ← member pkg Package.packageJSON;
                 mret (Js.or_else (externalName packageJSON externalizedName)
                         externalizedName)
               else mret externalizedName);
            mret (Some (found externalizedName
                          (externalized externalizedName) None))
          else mret None
      | other => mret None
      end;
    match early with
    | Some resolution => mret resolution
    | None =>
        let filename :=
          match status with
          | Channel.found filename =>
              if ResolveResult.external result then filename
              else ResolveResult.path result
          | _ => ResolveResult.path result
          end in
        mret (found filename (OnResolveResult.of_resolved result) None)
    end.

End WithImports.
End EsBuildRequestAdapter.

(** ** One call of [resolve], observed

    The values [resolve] computes on its way, named so that statements can
    speak of the host's answer and of the status read back. *)
Module Observe.
Import Esbuild Core EsBuildRequestAdapter.

Section OneCall.
Context `{Imports}.
Variables (self : EsBuildRequestAdapter.t) (request : ModuleRequest.t)
          (g : Channel.Global).

(** The answer of [build.resolve] and the global it leaves, the specifier
    having been marked pending. *)
Definition hostCall : ResolveResult.t * Channel.Global :=
  PluginBuild.resolve (context self) (ModuleRequest.specifier request)
    (resolveOptions self request)
    (Channel.requestStatus (ModuleRequest.specifier request) g).

Definition hostResult : ResolveResult.t := hostCall.1.

(** The status [readStatus] returns after the host call. *)
Definition consumedStatus : Channel.InternalStatus :=
  (Channel.readStatus (ModuleRequest.specifier request) hostCall.2).1.

(** The global once [resolve] is over. *)
Definition finalGlobal : Channel.Global :=
  (Channel.readStatus (ModuleRequest.specifier request) hostCall.2).2.

End OneCall.

(** The package that owns the file the host resolved to. *)
Definition owner (self : EsBuildRequestAdapter.t) (result : ResolveResult.t)
  : option Package.t :=
  PackageCache.ownerOfFile (packageCache self) (ResolveResult.path result).

(** The condition of the app-boundary policy, in the words of its
    description: the phase is bundling, the file the host resolved to is
    owned by a package whose root is the app's root, and the namespace of the
    answer is [file] or begins with [embroider-]. *)
Definition boundaryApplies (self : EsBuildRequestAdapter.t)
    (result : ResolveResult.t) : Prop :=
  phase self = bundling
  ∧ (∃ pkg, owner self result = Some pkg
            ∧ Package.root pkg = PackageCache.appRoot (packageCache self))
  ∧ (ResolveResult.namespace result = "file"
     ∨ ∃ tail, ResolveResult.namespace result = "embroider-" +:+ tail).

(** The same condition as [resolve] tests it. *)
Definition boundaryTest (self : EsBuildRequestAdapter.t)
    (result : ResolveResult.t) : bool :=
  match phase self with
  | bundling =>
      strict_eq (Package.root <$> owner self result)
        (PackageCache.appRoot (packageCache self))
      && (String.eqb (ResolveResult.namespace result) "file"
          || Js.startsWith (ResolveResult.namespace result) "embroider-")
  | other => false
  end.

(** The name the policy externalizes a specifier to, for the manifest of
    the owning package. *)
Definition externalizedName `{Imports} (packageJSON : Js.value)
    (specifier : string) : string :=
  if Js.truthy_opt (packageName specifier) then specifier
  else Js.or_else (externalName packageJSON specifier) specifier.

(** The messages a not-found resolution carries, if it has a list of
    them. *)
Definition diagnostics (resolution : Resolution)
  : option (list Message) :=
  match resolution with
  | not_found err => OnResolveResult.errors err
  | found _ _ _ => None
  end.

(** The filename [resolve] reports when the policy does not apply. *)
Definition reportedFilename (status : Channel.InternalStatus)
    (result : ResolveResult.t) : string :=
  match status with
  | Channel.found filename =>
      if ResolveResult.external result then filename
      else ResolveResult.path result
  | _ => ResolveResult.path result
  end.

End Observe.

(** ** The adapter with collaborators that can fail

    [build.resolve] returns a promise, which can be rejected, and
    [ownerOfFile], [packageName] and [externalName] are calls into other
    packages, which can throw.  [resolve] has no [try]: a failure of a
    collaborator ends it.  Here every collaborator of [resolve] returns a
    completion; [dirname] is node's, which does not throw on a string. *)
Module Fallible.
Import Esbuild Core.

Module PluginBuild.
Record t : Type := {
  resolve : string → ResolveOptions.t → Channel.Global →
            Completion ResolveResult.t * Channel.Global;
}.
End PluginBuild.

Module PackageCache.
Record t : Type := {
  ownerOfFile : string → Completion (option Package.t);
  appRoot : string;
}.
End PackageCache.

Class Imports : Type := {
  packageName : string → Completion (option string);
  externalName : Js.value → string → Completion (option string);
  dirname : string → string;
}.

Record t : Type := {
  packageCache : PackageCache.t;
  phase : Phase;
  context : PluginBuild.t;
  kind : ImportKind;
}.

(** A call that returns or throws and leaves the global alone. *)
Definition attempt {A : Type} (completion : Completion A) : Eff A :=
  λ g, (completion, g).

Section WithImports.
Context `{Imports}.

Definition resolveOptions (self : t) (request : ModuleRequest.t)
  : ResolveOptions.t := {|
  ResolveOptions.importer := ModuleRequest.fromFile request;
  ResolveOptions.resolveDir := dirname (ModuleRequest.fromFile request);
  ResolveOptions.kind := kind self;
  ResolveOptions.pluginData :=
    Js.Obj [("embroider",
             Js.Obj [("enableCustomResolver", Js.Bool false);
                     ("meta", ModuleRequest.meta request)])];
|}.

Definition resolve (self : t) (request : ModuleRequest.t) : Eff Resolution :=
  let specifier := ModuleRequest.specifier request in
  _ ← exec (Channel.requestStatus specifier);
  result ← PluginBuild.resolve (context self) specifier
             (resolveOptions self request);
  status ← call (Channel.readStatus specifier);
  if (0 <? length (ResolveResult.errors result))%nat
     || Channel.is_not_found status
  then mret (not_found (OnResolveResult.of_resolved result))
  else
    early ←
      match phase self with
      | bundling =>
          pkg ← attempt (PackageCache.ownerOfFile (packageCache self)
                           (ResolveResult.path result));
          if strict_eq (Package.root <$> pkg)
               (PackageCache.appRoot (packageCache self))
             && (String.eqb (ResolveResult.namespace result) "file"
                 || Js.startsWith (ResolveResult.namespace result)
                      "embroider-")
          then
            let externalizedName := specifier in
            package ← attempt (packageName externalizedName);
            externalizedName ←
              (if negb (Js.truthy_opt package)
               then
                 packageJSON ← member pkg Package.packageJSON;
                 external ← attempt (externalName packageJSON externalizedName);
                 mret (Js.or_else external externalizedName)
               else mret externalizedName);
            mret (Some (found externalizedName
                          (EsBuildRequestAdapter.externalized externalizedName)
                          None))
          else mret None
      | other => mret None
      end;
    match early with
    | Some resolution => mret resolution
    | None =>
        let filename :=
          match status with
          | Channel.found filename =>
              if ResolveResult.external result then filename
              else ResolveResult.path result
          | _ => ResolveResult.path result
          end in
        mret (found filename (OnResolveResult.of_resolved result) None)
    end.

End WithImports.
End Fallible.

(** Collaborators that answer, as collaborators that can fail. *)
Module Answering.
Import Esbuild Core.

Definition build (answering : PluginBuild.t) : Fallible.PluginBuild.t := {|
  Fallible.PluginBuild.resolve := λ specifier options g,
    let '(result, g') := PluginBuild.resolve answering specifier options g in
    (Normal result, g');
|}.

Definition cache (answering : PackageCache.t) : Fallible.PackageCache.t := {|
  Fallible.PackageCache.ownerOfFile := λ file,
    Normal (PackageCache.ownerOfFile answering file);
  Fallible.PackageCache.appRoot := PackageCache.appRoot answering;
|}.

Definition imports (answering : Imports) : Fallible.Imports := {|
  Fallible.packageName := λ specifier, Normal (packageName specifier);
  Fallible.externalName := λ packageJSON path,
    Normal (externalName packageJSON path);
  Fallible.dirname := dirname;
|}.

Definition adapter (answering : EsBuildRequestAdapter.t) : Fallible.t := {|
  Fallible.packageCache :=
    cache (EsBuildRequestAdapter.packageCache answering);
  Fallible.phase := EsBuildRequestAdapter.phase answering;
  Fallible.context := build (EsBuildRequestAdapter.context answering);
  Fallible.kind := EsBuildRequestAdapter.kind answering;
|}.

End Answering.

(** ** Stand-ins for the imported functions

    The imported functions are not in the sources at hand.  The runs below
    need functions to run with; these follow the imported ones on the
    arguments the runs give them: paths and urls on one line, with
    [/] as the separator, and manifests whose [exports], when they have
    any, hold no wildcard and no array. *)
Module Standin.

(** [s.split('/')] *)
Fixpoint split (s : string) : list string :=
  match s with
  | EmptyString => [EmptyString]
  | String c rest =>
      if Ascii.eqb c "/"%char then EmptyString :: split rest
      else
        match split rest with
        | segment :: more => String c segment :: more
        | [] => [String c EmptyString]
        end
  end.

Definition endsWithSlash (s : string) : bool :=
  match rev (list_ascii_of_string s) with
  | c :: _ => Ascii.eqb c "/"%char
  | [] => false
  end.

(** One segment in node's [normalizeString]; the segments kept so far are
    in [kept], the last one first. *)
Definition keep (allowAboveRoot : bool) (kept : list string)
    (segment : string) : list string :=
  if String.eqb segment "" || String.eqb segment "." then kept
  else if String.eqb segment ".." then
    match kept with
    | last :: before =>
        if String.eqb last ".." then
          if allowAboveRoot then ".." :: kept else kept
        else before
    | [] => if allowAboveRoot then [".."] else []
    end
  else segment :: kept.

(** [posix.normalize] *)
Definition normalize (path : string) : string :=
  if String.eqb path "" then "."
  else
    let isAbsolute := Js.startsWith path "/" in
    let body :=
      String.concat "/"
        (rev (foldl (keep (negb isAbsolute)) [] (split path))) in
    if String.eqb body "" then
      if isAbsolute then "/" else if endsWithSlash path then "./" else "."
    else
      let body := if endsWithSlash path then body +:+ "/" else body in
      if isAbsolute then "/" +:+ body else body.

(** [posix.join] of two strings. *)
Definition join (a b : string) : string :=
  if String.eqb a "" then normalize b
  else if String.eqb b "" then normalize a
  else normalize (a +:+ "/" +:+ b).

Fixpoint dropWhile {A : Type} (p : A → bool) (l : list A) : list A :=
  match l with
  | x :: rest => if p x then dropWhile p rest else l
  | [] => []
  end.

(** [posix.dirname]: the path up to the slash before its last segment,
    found from the end as node does. *)
Definition dirname (path : string) : string :=
  match path with
  | EmptyString => "."
  | String root rest =>
      let hasRoot := Ascii.eqb root "/"%char in
      let fromEnd := rev (list_ascii_of_string rest) in
      let isSlash := λ c, Ascii.eqb c "/"%char in
      let base := dropWhile isSlash fromEnd in
      match dropWhile (λ c, negb (isSlash c)) base with
      | [] => if hasRoot then "/" else "."
      | _ :: before =>
          match before with
          | [] => if hasRoot then "//" else String root EmptyString
          | _ => String root (string_of_list_ascii (rev before))
          end
      end
  end.

(** [cleanUrl] of @embroider/core: the url up to its query or hash. *)
Fixpoint cleanUrl (url : string) : string :=
  match url with
  | EmptyString => EmptyString
  | String c rest =>
      if Ascii.eqb c "?"%char || Ascii.eqb c "#"%char then EmptyString
      else String c (cleanUrl rest)
  end.

(** [packageName] of @embroider/core: nothing for a relative path, an
    absolute path and the specifiers that begin with [!] or [-]; else the
    first segment, or the first two of a scoped name. *)
Definition packageName (specifier : string) : option string :=
  if Js.startsWith specifier "." || Js.startsWith specifier "!"
     || Js.startsWith specifier "-" || Js.startsWith specifier "/"
  then None
  else
    match split specifier with
    | scope :: rest =>
        if Js.startsWith specifier "@" then
          Some (scope +:+ "/" +:+ match rest with
                                  | name :: _ => name
                                  | [] => "undefined"
                                  end)
        else Some scope
    | [] => Some ""
    end.

Definition typeof (v : Js.value) : string :=
  match v with
  | Js.Undefined => "undefined"
  | Js.Null | Js.Obj _ => "object"
  | Js.Bool _ => "boolean"
  | Js.Num _ => "number"
  | Js.Str _ => "string"
  end.

(** The search of [externalName] through the [exports] of a manifest for
    an entry that is the path: the key it stands under, or nothing.  A
    value that is neither a string nor an object makes it throw. *)
Fixpoint findPath (path : string) (exportsObj : Js.value) (key : string)
  : Completion (option string) :=
  match exportsObj with
  | Js.Str candidate =>
      Normal (if String.eqb candidate path then Some key else None)
  | Js.Obj fields =>
      (fix entries (fields : list (string * Js.value)) :=
         match fields with
         | [] => Normal None
         | (maybeKey, value) :: rest =>
             let pathKey :=
               if Js.startsWith maybeKey "." then maybeKey else key in
             match findPath path value pathKey with
             | Normal None => entries rest
             | Normal (Some found) => Normal (Some found)
             | Throw e => Throw e
             end
         end) fields
  | Js.Null => Throw (TypeError "Cannot convert undefined or null to object")
  | other => Throw (Error ("Unexpected type of obj: " +:+ typeof other))
  end.

(** [externalName] of @embroider/reverse-exports: for a manifest without
    [exports] the name of the package joined with the path; else the name
    joined with the key the path is exported under, or nothing when it is
    not exported. *)
Definition externalName (pkg : Js.value) (path : string)
  : Completion (option string) :=
  let exports := Js.optchain pkg "exports" in
  match Js.optchain pkg "name" with
  | Js.Str name =>
      if negb (Js.truthy exports) then Normal (Some (join name path))
      else
        match findPath path exports "." with
        | Normal (Some key) => Normal (Some (join name key))
        | Normal None => Normal None
        | Throw e => Throw e
        end
  | _ => Throw (TypeError "The name of the package is not a string")
  end.

(** What a completion answers, if it does. *)
Definition answer {A : Type} (completion : Completion (option A))
  : option A :=
  match completion with
  | Normal a => a
  | Throw _ => None
  end.

End Standin.

(** ** A small application, to run the definitions on

    An app [my-app] rooted at [/app] with one dependency, hosts that answer
    what they are told to and let the rollup resolver plugin write what it
    is told to, and stand-ins for the imported functions. *)
Module Scenario.
Import Esbuild Core EsBuildRequestAdapter.

Definition appPackage : Package.t := {|
  Package.root := "/app";
  Package.packageJSON := Js.Obj [("name", Js.Str "my-app")];
|}.

Definition lodashPackage : Package.t := {|
  Package.root := "/app/node_modules/lodash";
  Package.packageJSON := Js.Obj [("name", Js.Str "lodash")];
|}.

Definition packageCache : PackageCache.t := {|
  PackageCache.ownerOfFile := λ file,
    if Js.startsWith file "/app/node_modules/lodash/" then Some lodashPackage
    else if Js.startsWith file "/app/" then Some appPackage
    else None;
  PackageCache.appRoot := "/app";
|}.

#[global] Instance imports : Imports := {|
  cleanUrl := Standin.cleanUrl;
  packageName := Standin.packageName;
  externalName := λ pkg path, Standin.answer (Standin.externalName pkg path);
  dirname := Standin.dirname;
  platform := "linux";
|}.

(** What the rollup resolver plugin does while the host resolves. *)
Definition cooperating (writes : list (string * Channel.InternalStatus))
    (g : Channel.Global) : Channel.Global :=
  foldl (λ g w, Channel.writeStatus w.1 w.2 g) g writes.

Definition host (answer : ResolveResult.t)
    (writes : list (string * Channel.InternalStatus)) : PluginBuild.t := {|
  PluginBuild.resolve := λ _ _ g, (answer, cooperating writes g);
|}.

Definition answer (path : string) (external : bool) (namespace : string)
  : ResolveResult.t := {|
  ResolveResult.errors := [];
  ResolveResult.warnings := [];
  ResolveResult.path := path;
  ResolveResult.external := external;
  ResolveResult.sideEffects := false;
  ResolveResult.namespace := namespace;
  ResolveResult.suffix := "";
  ResolveResult.pluginData := Js.Undefined;
|}.

Definition adapter (phase : Phase) (build : PluginBuild.t)
  : EsBuildRequestAdapter.t := {|
  EsBuildRequestAdapter.packageCache := packageCache;
  EsBuildRequestAdapter.phase := phase;
  EsBuildRequestAdapter.context := build;
  EsBuildRequestAdapter.kind := import_statement;
|}.

Definition request (specifier fromFile : string) : ModuleRequest.t := {|
  ModuleRequest.specifier := specifier;
  ModuleRequest.fromFile := fromFile;
  ModuleRequest.meta := Js.Undefined;
|}.

(** The app again, with a manifest that exports its entry point and
    nothing else, and with a manifest whose [exports] hold a number. *)
Definition sealedPackage : Package.t := {|
  Package.root := "/app";
  Package.packageJSON :=
    Js.Obj [("name", Js.Str "my-app");
            ("exports", Js.Obj [(".", Js.Str "./index.js")])];
|}.

Definition brokenPackage : Package.t := {|
  Package.root := "/app";
  Package.packageJSON :=
    Js.Obj [("name", Js.Str "my-app");
            ("exports", Js.Obj [(".", Js.Num 5)])];
|}.

Definition packageCacheOf (app : Package.t) : PackageCache.t := {|
  PackageCache.ownerOfFile := λ file,
    if Js.startsWith file "/app/node_modules/lodash/" then Some lodashPackage
    else if Js.startsWith file "/app/" then Some app
    else None;
  PackageCache.appRoot := "/app";
|}.

Definition adapterOf (app : Package.t) (phase : Phase)
    (build : PluginBuild.t) : EsBuildRequestAdapter.t := {|
  EsBuildRequestAdapter.packageCache := packageCacheOf app;
  EsBuildRequestAdapter.phase := phase;
  EsBuildRequestAdapter.context := build;
  EsBuildRequestAdapter.kind := import_statement;
|}.

End Scenario.

(** The same application with collaborators that can fail: [externalName]
    as it throws, and a host whose promise is rejected. *)
Module Failing.
Import Esbuild Core.

#[global] Instance imports : Fallible.Imports := {|
  Fallible.packageName := λ specifier, Normal (Standin.packageName specifier);
  Fallible.externalName := Standin.externalName;
  Fallible.dirname := Standin.dirname;
|}.

Definition adapterOf (app : Package.t) (phase : Phase)
    (build : Fallible.PluginBuild.t) : Fallible.t := {|
  Fallible.packageCache := Answering.cache (Scenario.packageCacheOf app);
  Fallible.phase := phase;
  Fallible.context := build;
  Fallible.kind := import_statement;
|}.

Definition rejecting (reason : string) : Fallible.PluginBuild.t := {|
  Fallible.PluginBuild.resolve := λ _ _ g, (Throw (Error reason), g);
|}.

End Failing.

(** ** The declarations plugin: [fixDeclarations]

    [rollup-declarations.ts] strips the [.gts] extension from the imports
    of generated declaration files with one regular expression and the
    replacement [from '$1'].  The expression is, with [Q] for the class of
    the single and the double quote, [/from\s+Q([^Q]+)\.gts Q/g] (no space
    before the last [Q]).

    A text is the sequence of UTF-16 code units of the JavaScript string:
    without the [u] flag that is what a regular expression reads.  The
    expression is built from matchers in the way ECMAScript defines them: a
    matcher takes the input and a continuation, and a quantifier backtracks
    by calling its continuation again on a shorter match. *)
Module Declarations.

Definition units (s : string) : list N :=
  N_of_ascii <$> list_ascii_of_string s.

(** The class [\s]: white space and line terminators. *)
Definition isWhiteSpace (c : N) : bool :=
  ((9 <=? c) && (c <=? 13)
   || (c =? 32) || (c =? 160) || (c =? 5760)
   || (8192 <=? c) && (c <=? 8202)
   || (c =? 8232) || (c =? 8233) || (c =? 8239) || (c =? 8287)
   || (c =? 12288) || (c =? 65279))%N.

(** The class of the two quotes, single (39) and double (34). *)
Definition isQuote (c : N) : bool := ((c =? 39) || (c =? 34))%N.

(** Its complement, the class of group 1. *)
Definition notQuote (c : N) : bool := negb (isQuote c).

Section Matchers.
Context {R : Type}.

(** One code unit of a class. *)
Definition char (p : N → bool) (input : list N)
    (k : list N → option R) : option R :=
  match input with
  | c :: rest => if p c then k rest else None
  | [] => None
  end.

(** A literal text. *)
Fixpoint literal (text : list N) (input : list N)
    (k : list N → option R) : option R :=
  match text with
  | [] => k input
  | t :: text' => char (N.eqb t) input (λ rest, literal text' rest k)
  end.

(** [p*], greedy: the longest run first, then shorter ones.  The
    continuation receives what was taken and what is left. *)
Fixpoint star (p : N → bool) (input : list N)
    (k : list N → list N → option R) : option R :=
  match input with
  | c :: rest =>
      if p c then
        match star p rest (λ taken, k (c :: taken)) with
        | Some r => Some r
        | None => k [] input
        end
      else k [] input
  | [] => k [] input
  end.

(** [p+] *)
Definition plus (p : N → bool) (input : list N)
    (k : list N → list N → option R) : option R :=
  match input with
  | c :: rest => if p c then star p rest (λ taken, k (c :: taken)) else None
  | [] => None
  end.

End Matchers.

(** The regular expression, matched at the head of the input: the text of
    group 1 and the input after the match. *)
Definition exec (input : list N) : option (list N * list N) :=
  literal (units "from") input (λ rest,
  plus isWhiteSpace rest (λ _ rest,
  char isQuote rest (λ rest,
  plus notQuote rest (λ group rest,
  literal (units ".gts") rest (λ rest,
  char isQuote rest (λ rest,
  Some (group, rest))))))).

(** The replacement [from '$1']. *)
Definition replacement (group : list N) : list N :=
  units "from '" ++ group ++ units "'".

(** [String.prototype.replace] with the global expression: the leftmost
    match from the current index is replaced and the search goes on after
    it; where there is no match the code unit is kept.  A match is not
    empty, so the length of the text bounds the number of steps. *)
Fixpoint replaceFrom (steps : nat) (input : list N) : list N :=
  match steps with
  | O => input
  | S steps' =>
      match input with
      | [] => []
      | c :: rest =>
          match exec input with
          | Some (group, after) => replacement group ++ replaceFrom steps' after
          | None => c :: replaceFrom steps' rest
          end
      end
  end.

Definition fixDeclarations (content : list N) : list N :=
  replaceFrom (length content) content.

(** A text read back as a string, for texts of code units below 256. *)
Definition text (content : list N) : string :=
  string_of_list_ascii (ascii_of_N <$> content).

(** Whether [pattern] occurs in [content]. *)
Fixpoint startsWith (content pattern : list N) : bool :=
  match pattern, content with
  | [], _ => true
  | p :: pattern', c :: content' => (p =? c)%N && startsWith content' pattern'
  | _ :: _, [] => false
  end.

Fixpoint occurs (pattern content : list N) : bool :=
  startsWith content pattern
  || match content with
     | [] => false
     | _ :: content' => occurs pattern content'
     end.

(** The texts the expression matches, said without a matcher: [from], a
    run of white space, a quote, the group, [.gts], a quote. *)
Definition isImport (group after input : list N) : Prop :=
  ∃ spaces opening closing,
    input = (units "from" ++ spaces ++ opening :: group
             ++ units ".gts" ++ closing :: after)%list
    ∧ spaces ≠ [] ∧ forallb isWhiteSpace spaces = true
    ∧ isQuote opening = true ∧ isQuote closing = true
    ∧ group ≠ [] ∧ forallb notQuote group = true.

End Declarations.

(** ** Sequences of writes, and hosts for more runs *)
Module Writes.
Import Channel.

(** The calls of [writeStatus] the rollup resolver plugin makes during one
    host call, in order. *)
Definition writeAll (writes : list (string * InternalStatus)) (g : Global)
  : Global :=
  foldl (λ g w, writeStatus w.1 w.2 g) g writes.

(** The status of the first write to [id] that is not [pending]; [pending]
    when there is none. *)
Fixpoint firstSettled (id : string) (writes : list (string * InternalStatus))
  : InternalStatus :=
  match writes with
  | [] => pending
  | (id', status) :: writes' =>
      if String.eqb id' id && negb (is_pending status) then status
      else firstSettled id writes'
  end.

End Writes.

Module Interleaved.
Import Esbuild Core.

(** A host during whose call another call of [resolve] runs from its
    beginning to its end. *)
Definition hostRunning `{Imports} (inner : EsBuildRequestAdapter.t)
    (request : ModuleRequest.t) (answer : ResolveResult.t) : PluginBuild.t := {|
  PluginBuild.resolve := λ _ _ g,
    (answer, (EsBuildRequestAdapter.resolve inner request g).2);
|}.

End Interleaved.

(** Stand-ins for the imported functions on Windows, for runs of
    [create], which calls [cleanUrl] and reads the platform; the paths of
    the other functions are those of [Standin], which holds for the paths
    with [/] only. *)
Module Windows.

Definition imports : Imports := {|
  cleanUrl := Standin.cleanUrl;
  packageName := Standin.packageName;
  externalName := λ pkg path, Standin.answer (Standin.externalName pkg path);
  dirname := Standin.dirname;
  platform := "win32";
|}.

End Windows.

(** * Properties *)

(** A closed equation or inequation between values, by running both
    sides. *)
Ltac by_running := vm_compute; first [reflexivity | discriminate].

(** ** The channel *)
Section ChannelFacts.
Import Channel.
Implicit Types (id : string) (g : Global) (status : InternalStatus).

Lemma sharedGlobalState_entries g :
  sharedGlobalState g = (entries g, Some (entries g)).
Proof. by destruct g. Qed.

Lemma entries_requestStatus id g :
  entries (requestStatus id g) = <[id := pending]> (entries g).
Proof. by destruct g. Qed.

Lemma entries_readStatus id g :
  entries (readStatus id g).2 = delete id (entries g).
Proof. by destruct g. Qed.

Lemma readStatus_value id g :
  (readStatus id g).1 = default pending (entries g !! id).
Proof. by destruct g. Qed.

Lemma entries_writeStatus_pending id status g :
  entries g !! id = Some pending →
  entries (writeStatus id status g) = <[id := status]> (entries g).
Proof.
  unfold writeStatus. rewrite sharedGlobalState_entries.
  by intros ->.
Qed.

Lemma entries_writeStatus_other id status g :
  entries g !! id ≠ Some pending →
  entries (writeStatus id status g) = entries g.
Proof.
  unfold writeStatus. rewrite sharedGlobalState_entries.
  destruct (entries g !! id) as [[]|]; by intros.
Qed.

(** After a write of anything but [pending], the id is not pending. *)
Lemma writeStatus_settles id status g :
  status ≠ pending →
  entries (writeStatus id status g) !! id ≠ Some pending.
Proof.
  intros Hs. destruct (decide (entries g !! id = Some pending)) as [Hp|Hp].
  - rewrite entries_writeStatus_pending, lookup_insert_eq by done. congruence.
  - by rewrite entries_writeStatus_other.
Qed.

(** C3. Reading an id twice in a row, with no write in between, gives
    [pending] the second time: the first read returns the value of the id
    ([pending] when there is none) and deletes its entry, and the read of an
    id without an entry returns [pending]. *)
Theorem readStatus_twice id g :
  let first := readStatus id g in
  first.1 = default pending (entries g !! id)
  ∧ entries first.2 = delete id (entries g)
  ∧ entries first.2 !! id = None
  ∧ (readStatus id first.2).1 = pending.
Proof.
  cbv zeta. rewrite !readStatus_value, entries_readStatus, lookup_delete_eq.
  done.
Qed.

(** C4. A write changes the channel only where the id is pending: there it
    stores the status; where the id holds [found] or [not_found], or has no
    entry, the channel is left as it was.  In particular a write of
    [not_found] after a write of [found] changes nothing, whatever the
    channel was: the next read returns what it would have returned without
    it, which is the filename of the first write when that write found the
    id pending. *)
Theorem writeStatus_only_when_pending id status g :
  (entries g !! id = Some pending →
     entries (writeStatus id status g) = <[id := status]> (entries g))
  ∧ (entries g !! id ≠ Some pending →
     entries (writeStatus id status g) = entries g)
  ∧ ∀ filename,
      let once := writeStatus id (found filename) g in
      let twice := writeStatus id not_found once in
      entries twice = entries once
      ∧ (readStatus id twice).1 = (readStatus id once).1
      ∧ (entries g !! id = Some pending →
         (readStatus id twice).1 = found filename).
Proof.
  split; [apply entries_writeStatus_pending|].
  split; [apply entries_writeStatus_other|].
  intros filename once twice.
  assert (entries twice = entries once) as Htwice.
  { apply entries_writeStatus_other, writeStatus_settles. done. }
  split; [done|]. rewrite !readStatus_value, Htwice. split; [done|].
  intros Hpending. subst once.
  by rewrite entries_writeStatus_pending, lookup_insert_eq.
Qed.

(** The second write is lost on a pending id of a channel not yet
    created. *)
Lemma writeStatus_only_when_pending_witness :
  let g := requestStatus "lodash/foo" None in
  let once := writeStatus "lodash/foo" (found "/app/node_modules/lodash/foo.js") g in
  let twice := writeStatus "lodash/foo" not_found once in
  entries g !! "lodash/foo" = Some pending
  ∧ (readStatus "lodash/foo" twice).1
    = found "/app/node_modules/lodash/foo.js".
Proof.
  intros g once twice.
  assert (entries g !! "lodash/foo" = Some pending) as Hpending
    by by_running.
  split; [exact Hpending|].
  exact (proj2 (proj2 (proj2 (proj2
    (writeStatus_only_when_pending "lodash/foo" not_found g))
      "/app/node_modules/lodash/foo.js")) Hpending).
Defined.

End ChannelFacts.

(** ** Strings *)
Section StringFacts.

Lemma startsWith_spec (s p : string) :
  Js.startsWith s p = true ↔ ∃ tail, s = p +:+ tail.
Proof.
  unfold Js.startsWith. revert s.
  induction p as [|c p IH]; intros [|c' s]; simpl.
  - split; [by exists "" | done].
  - split; [by exists (String c' s) | done].
  - split; [done | by intros [tail ?]].
  - destruct (Ascii.ascii_dec c c') as [->|Hne].
    + rewrite IH. split; intros [tail Heq]; exists tail.
      * by rewrite Heq.
      * by injection Heq.
    + split; [done|]. intros [tail Heq]. injection Heq as Hc _.
      by destruct Hne.
Qed.

Lemma truthy_string_spec (s : string) : Js.truthy_string s = true ↔ s ≠ "".
Proof.
  unfold Js.truthy_string. destruct (String.eqb_spec s ""); simpl; split;
    congruence.
Qed.

Lemma first_char_differs_spec (s : string) (c : ascii) :
  Js.first_char_differs s c = false ↔ ∃ tail, s = String c tail.
Proof.
  destruct s as [|c0 s]; simpl.
  - split; [done | by intros [tail ?]].
  - destruct (Ascii.eqb_spec c0 c) as [->|Hne]; simpl.
    + split; [by exists s | done].
    + split; [done|]. intros [tail Heq]. congruence.
Qed.

End StringFacts.

(** ** One call of [resolve] *)
Section ResolveFacts.
Import Esbuild Core EsBuildRequestAdapter Observe.
Context `{Imports}.
Implicit Types (self : EsBuildRequestAdapter.t) (request : ModuleRequest.t)
               (g : Channel.Global) (result : ResolveResult.t).

Lemma boundaryTest_spec self result :
  boundaryTest self result = true ↔ boundaryApplies self result.
Proof.
  unfold boundaryTest, boundaryApplies.
  destruct (phase self); [|split; [done | by intros [? _]]].
  rewrite andb_true_iff, orb_true_iff, startsWith_spec.
  rewrite (String.eqb_eq (ResolveResult.namespace result)).
  destruct (owner self result) as [pkg|]; simpl.
  - rewrite String.eqb_eq. split.
    + intros [Hroot Hns]. split; [done|]. split; [by exists pkg | done].
    + intros (_ & (pkg' & [= <-] & Hroot) & Hns). done.
  - split; [by intros [? _] | by intros (_ & (pkg' & ? & _) & _)].
Qed.

Lemma boundaryTest_owner self result :
  boundaryTest self result = true →
  ∃ pkg, owner self result = Some pkg
         ∧ Package.root pkg = PackageCache.appRoot (packageCache self).
Proof. rewrite boundaryTest_spec. by intros (_ & ? & _). Qed.

(** What [resolve] returns, by the three ways it can end. *)
Lemma resolve_run self request g :
  let result := hostResult self request g in
  let status := consumedStatus self request g in
  resolve self request g =
  (Normal
     (if (0 <? length (ResolveResult.errors result))%nat
         || Channel.is_not_found status
      then not_found (OnResolveResult.of_resolved result)
      else if boundaryTest self result
      then
        let name :=
          externalizedName
            (default Js.Undefined (Package.packageJSON <$> owner self result))
            (ModuleRequest.specifier request) in
        found name (externalized name) None
      else found (reportedFilename status result)
             (OnResolveResult.of_resolved result) None),
   finalGlobal self request g).
Proof.
  intros result status. subst result status.
  unfold resolve, hostResult, consumedStatus, finalGlobal, hostCall.
  unfold mbind, Eff_bind, exec, call, mret, Eff_ret. simpl.
  destruct (PluginBuild.resolve _ _ _ _) as [result g1]. simpl.
  destruct (Channel.readStatus _ g1) as [status g2]. simpl.
  destruct (_ || _); [done|].
  unfold boundaryTest, owner, externalizedName, reportedFilename.
  destruct (phase self); [|done].
  destruct (PackageCache.ownerOfFile _ _) as [pkg|]; simpl; [|done].
  destruct (_ && _); [|done].
  by destruct (Js.truthy_opt _).
Qed.

Lemma no_errors_spec (errors : list Message) :
  (0 <? length errors)%nat = false ↔ errors = [].
Proof. by destruct errors. Qed.

Lemma is_not_found_spec (status : Channel.InternalStatus) :
  Channel.is_not_found status = true ↔ status = Channel.not_found.
Proof. by destruct status. Qed.

(** The guard of [resolve] leads to its first [return] exactly when the
    host reported errors or the status read back is [not_found]. *)
Lemma guard_spec (errors : list Message) (status : Channel.InternalStatus) :
  (0 <? length errors)%nat || Channel.is_not_found status = false
  ↔ errors = [] ∧ status ≠ Channel.not_found.
Proof.
  rewrite orb_false_iff, no_errors_spec.
  destruct status; simpl; intuition congruence.
Qed.

(** The host's own answer is never the answer the policy makes up. *)
Lemma of_resolved_not_externalized result name :
  OnResolveResult.of_resolved result ≠ externalized name.
Proof. intros Heq. by apply (f_equal OnResolveResult.errors) in Heq. Qed.

(** The three ways [resolve] ends, one lemma each. *)
Lemma resolve_not_found self request g :
  ResolveResult.errors (hostResult self request g) ≠ []
  ∨ consumedStatus self request g = Channel.not_found →
  resolve self request g =
  (Normal (not_found (OnResolveResult.of_resolved (hostResult self request g))),
   finalGlobal self request g).
Proof.
  intros Hguard. rewrite resolve_run.
  destruct (_ || _) eqn:Htest; [done|].
  apply guard_spec in Htest. tauto.
Qed.

Lemma resolve_boundary self request g :
  ResolveResult.errors (hostResult self request g) = [] →
  consumedStatus self request g ≠ Channel.not_found →
  boundaryApplies self (hostResult self request g) →
  ∃ pkg,
    owner self (hostResult self request g) = Some pkg
    ∧ Package.root pkg = PackageCache.appRoot (packageCache self)
    ∧ resolve self request g =
      (let name :=
         externalizedName (Package.packageJSON pkg)
           (ModuleRequest.specifier request) in
       Normal (found name (externalized name) None),
       finalGlobal self request g).
Proof.
  intros Herrors Hstatus Happlies. rewrite resolve_run.
  rewrite (proj2 (guard_spec _ _)) by done.
  rewrite (proj2 (boundaryTest_spec _ _)) by done.
  destruct Happlies as (_ & (pkg & Howner & Hroot) & _).
  exists pkg. by rewrite Howner.
Qed.

Lemma resolve_passes_through self request g :
  ResolveResult.errors (hostResult self request g) = [] →
  consumedStatus self request g ≠ Channel.not_found →
  ¬ boundaryApplies self (hostResult self request g) →
  resolve self request g =
  (Normal (found
             (reportedFilename (consumedStatus self request g)
                (hostResult self request g))
             (OnResolveResult.of_resolved (hostResult self request g)) None),
   finalGlobal self request g).
Proof.
  intros Herrors Hstatus Happlies. rewrite resolve_run.
  rewrite (proj2 (guard_spec _ _)) by done.
  destruct (boundaryTest _ _) eqn:Htest; [|done].
  by apply boundaryTest_spec in Htest.
Qed.

(** C1. When the host reports no error, the status read back is not
    [not_found] and the app-boundary policy does not apply, [resolve]
    returns a found resolution that carries the host's answer; its filename
    is the filename of the channel when the status read back is [found] and
    the host's answer is marked external, and the path of the host's answer
    in every other such case. *)
Theorem resolve_reports_channel_filename self request g :
  let result := hostResult self request g in
  let status := consumedStatus self request g in
  ResolveResult.errors result = [] →
  status ≠ Channel.not_found →
  ¬ boundaryApplies self result →
  ∃ filename,
    resolve self request g =
    (Normal (found filename (OnResolveResult.of_resolved result) None),
     finalGlobal self request g)
    ∧ (∀ F, status = Channel.found F →
            ResolveResult.external result = true → filename = F)
    ∧ ((∀ F, status ≠ Channel.found F)
       ∨ ResolveResult.external result = false →
       filename = ResolveResult.path result).
Proof.
  intros result status Herrors Hstatus Happlies.
  exists (reportedFilename status result).
  split; [by apply resolve_passes_through|].
  unfold reportedFilename. split.
  - by intros F -> ->.
  - intros [Hno | ->]; destruct status as [| |F]; try done.
    by destruct (Hno F).
Qed.

(** Where its collaborators answer, [resolve] returns, and what it
    returns is a not-found resolution exactly when the host reported errors
    or the status read back is [not_found]; that resolution carries the
    host's answer. *)
Theorem resolve_not_found_iff self request g :
  let result := hostResult self request g in
  let status := consumedStatus self request g in
  ∃ resolution,
    resolve self request g = (Normal resolution, finalGlobal self request g)
    ∧ (is_not_found resolution = true
       ↔ ResolveResult.errors result ≠ [] ∨ status = Channel.not_found)
    ∧ (is_not_found resolution = true →
       resolution = not_found (OnResolveResult.of_resolved result)).
Proof.
  intros result status. rewrite resolve_run. fold result status.
  eexists. split; [reflexivity|].
  destruct (_ || _) eqn:Hguard.
  - apply orb_true_iff in Hguard as [Hlen | Hnf].
    + split; [|done]. split; [|done]. intros _. left.
      intros Hnil. by rewrite Hnil in Hlen.
    + apply is_not_found_spec in Hnf. split; [|done]. split; [|done].
      intros _. by right.
  - apply guard_spec in Hguard as [Hnil Hst].
    assert (∀ r1 r2 : Resolution,
      is_not_found (if boundaryTest self result then r1 else r2)
      = is_not_found r1 && boundaryTest self result
        || is_not_found r2 && negb (boundaryTest self result)) as Hif
      by (intros; destruct (boundaryTest _ _); simpl;
          rewrite ?andb_true_r, ?andb_false_r, ?orb_false_r; done).
    rewrite Hif. simpl. split; [|done]. split; [done|].
    intros [? | ?]; done.
Qed.

(** C10. When the host reports no error and [resolve] answers not found
    because the status read back is [not_found], the resolution carries the
    host's answer, whose list of errors is empty: no message at all, and so
    not the message [notFoundResponse] makes for the request. *)
Theorem resolve_not_found_without_message self request g :
  let result := hostResult self request g in
  ResolveResult.errors result = [] →
  consumedStatus self request g = Channel.not_found →
  ∃ err,
    resolve self request g = (Normal (not_found err), finalGlobal self request g)
    ∧ err = OnResolveResult.of_resolved result
    ∧ diagnostics (not_found err) = Some []
    ∧ diagnostics (not_found err)
      ≠ diagnostics (notFoundResponse self request).
Proof.
  intros result Herrors Hstatus. eexists. split.
  { apply resolve_not_found. by right. }
  split; [done|]. simpl. fold result. by rewrite Herrors.
Qed.

(** C2, amended. When the host reports no error and the status read back
    is not [not_found], [resolve] answers with a made-up external result
    exactly when the phase is bundling, the file the host resolved to is
    owned by a package whose root is the app's root, and the namespace of the
    host's answer is [file] or begins with [embroider-].  That resolution has
    [external] true and its filename as [path], a name computed from the
    specifier and the owner's manifest alone, whatever the channel held.  In
    phase other, [resolve] returns the host's own answer. *)
Theorem boundary_policy_iff self request g :
  let result := hostResult self request g in
  let status := consumedStatus self request g in
  ResolveResult.errors result = [] →
  status ≠ Channel.not_found →
  ((∃ name, resolve self request g =
            (Normal (found name (externalized name) None),
             finalGlobal self request g))
   ↔ boundaryApplies self result)
  ∧ (boundaryApplies self result →
     ∃ pkg name,
       owner self result = Some pkg
       ∧ name = externalizedName (Package.packageJSON pkg)
                  (ModuleRequest.specifier request)
       ∧ resolve self request g =
         (Normal (found name (externalized name) None),
          finalGlobal self request g)
       ∧ OnResolveResult.external (externalized name) = Some true
       ∧ OnResolveResult.path (externalized name) = Some name)
  ∧ (phase self = other →
     ∃ filename,
       resolve self request g =
       (Normal (found filename (OnResolveResult.of_resolved result) None),
        finalGlobal self request g)
       ∧ (filename = ResolveResult.path result
          ∨ status = Channel.found filename
            ∧ ResolveResult.external result = true)).
Proof.
  intros result status Herrors Hstatus.
  assert (boundaryApplies self result →
          ∃ pkg name,
            owner self result = Some pkg
            ∧ name = externalizedName (Package.packageJSON pkg)
                       (ModuleRequest.specifier request)
            ∧ resolve self request g =
              (Normal (found name (externalized name) None),
               finalGlobal self request g)
            ∧ OnResolveResult.external (externalized name) = Some true
            ∧ OnResolveResult.path (externalized name) = Some name) as Hfires.
  { intros Happlies.
    destruct (resolve_boundary self request g) as (pkg & Howner & _ & Hrun);
      [done..|].
    by exists pkg, (externalizedName (Package.packageJSON pkg)
                      (ModuleRequest.specifier request)). }
  assert (¬ boundaryApplies self result →
          resolve self request g =
          (Normal (found (reportedFilename status result)
                     (OnResolveResult.of_resolved result) None),
           finalGlobal self request g)) as Hpasses
    by (by apply resolve_passes_through).
  split; [|split; [done|]].
  - split.
    + intros [name Hrun].
      destruct (boundaryTest self result) eqn:Htest;
        [by apply boundaryTest_spec|].
      rewrite Hpasses in Hrun.
      * injection Hrun as _ Heq.
        by destruct (of_resolved_not_externalized result name).
      * rewrite <- boundaryTest_spec. by rewrite Htest.
    + intros Happlies.
      destruct (Hfires Happlies) as (pkg & name & _ & _ & Hrun & _).
      by exists name.
  - intros Hphase. eexists. split.
    + apply Hpasses. intros [Hbundling _]. congruence.
    + unfold reportedFilename. destruct status as [| |F]; [by left..|].
      destruct (ResolveResult.external result); [by right | by left].
Qed.

(** C6. When the policy applies, the name [resolve] externalizes to is:
    the specifier itself when [packageName] finds a package name in it;
    otherwise what [externalName] finds for the owner's manifest and the
    specifier; and the specifier itself when [externalName] finds nothing
    (no name, or the empty name). *)
Theorem externalized_name_of_specifier self request g :
  let result := hostResult self request g in
  let specifier := ModuleRequest.specifier request in
  ResolveResult.errors result = [] →
  consumedStatus self request g ≠ Channel.not_found →
  boundaryApplies self result →
  ∃ pkg name,
    owner self result = Some pkg
    ∧ resolve self request g =
      (Normal (found name (externalized name) None),
       finalGlobal self request g)
    ∧ ((∃ package, packageName specifier = Some package ∧ package ≠ "") →
       name = specifier)
    ∧ (packageName specifier = None ∨ packageName specifier = Some "" →
       (∀ external,
          externalName (Package.packageJSON pkg) specifier = Some external →
          external ≠ "" → name = external)
       ∧ (externalName (Package.packageJSON pkg) specifier = None
          ∨ externalName (Package.packageJSON pkg) specifier = Some "" →
          name = specifier)).
Proof.
  intros result specifier Herrors Hstatus Happlies.
  destruct (resolve_boundary self request g) as (pkg & Howner & _ & Hrun);
    [done..|].
  exists pkg, (externalizedName (Package.packageJSON pkg) specifier).
  split; [done|]. split; [done|].
  unfold externalizedName. split.
  - intros (package & -> & Hne). simpl.
    by rewrite (proj2 (truthy_string_spec _)).
  - intros Hnone.
    assert (Js.truthy_opt (packageName specifier) = false) as ->
      by (by destruct Hnone as [-> | ->]).
    split.
    + intros external -> Hne. simpl.
      by rewrite (proj2 (truthy_string_spec _)).
    + by intros [-> | ->].
Qed.

(** C7, amended. When the policy applies (in namespace [file] as in the
    namespaces of this plugin), [resolve] returns a found resolution marked
    external whose filename is the path the host resolved to only when the
    externalized name is itself that path: when the specifier is that path
    and either holds a package name or gets nothing from [externalName], or
    when what [externalName] finds for the specifier is that path.  In
    every other case the filename is different from that path. *)
Theorem externalized_filename_is_path_iff self request g :
  let result := hostResult self request g in
  let specifier := ModuleRequest.specifier request in
  ResolveResult.errors result = [] →
  consumedStatus self request g ≠ Channel.not_found →
  boundaryApplies self result →
  ∃ pkg name,
    owner self result = Some pkg
    ∧ resolve self request g =
      (Normal (found name (externalized name) None), finalGlobal self request g)
    ∧ OnResolveResult.external (externalized name) = Some true
    ∧ (name = ResolveResult.path result
       ↔ specifier = ResolveResult.path result
         ∧ (Js.truthy_opt (packageName specifier) = true
            ∨ Js.truthy_opt
                (externalName (Package.packageJSON pkg) specifier) = false)
         ∨ Js.truthy_opt (packageName specifier) = false
           ∧ ResolveResult.path result ≠ ""
           ∧ externalName (Package.packageJSON pkg) specifier
             = Some (ResolveResult.path result)).
Proof.
  intros result specifier Herrors Hstatus Happlies.
  destruct (resolve_boundary self request g) as (pkg & Howner & _ & Hrun);
    [done..|].
  exists pkg, (externalizedName (Package.packageJSON pkg) specifier).
  split; [done|]. split; [exact Hrun|]. split; [done|].
  unfold externalizedName.
  destruct (Js.truthy_opt (packageName specifier)) eqn:Hpackage.
  { split; [intros ->; left; split; [done | by left]|].
    intros [[-> _] | [? _]]; done. }
  unfold Js.or_else.
  destruct (externalName (Package.packageJSON pkg) specifier)
    as [external|] eqn:Hexternal; simpl.
  - destruct (Js.truthy_string external) eqn:Htruthy.
    + split.
      * intros ->. right. split; [done|]. split; [|done].
        by apply truthy_string_spec.
      * intros [[_ [? | ?]] | (_ & _ & [= ->])]; done.
    + split.
      * intros ->. left. split; [done | by right].
      * intros [[-> _] | (_ & Hpath & [= ->])]; [done|].
        apply truthy_string_spec in Hpath. congruence.
  - split.
    + intros ->. left. split; [done | by right].
    + intros [[-> _] | (_ & _ & ?)]; done.
Qed.

End ResolveFacts.

(** ** The factory and the responders *)
Section AdapterFacts.
Import Esbuild Core EsBuildRequestAdapter Observe.
Context `{Imports}.

(** [create] goes past its first [return] unless the flag is there and
    falsy. *)
Lemma flag_disables_spec (flag : Js.value) :
  negb (Js.truthy (Js.coalesce flag (Js.Bool true))) = true
  ↔ Js.nullish flag = false ∧ Js.truthy flag = false.
Proof.
  unfold Js.coalesce. destruct (Js.nullish flag) eqn:Hnullish; simpl.
  - split; [done | by intros [? _]].
  - rewrite negb_true_iff. tauto.
Qed.

(** C8. [create] returns nothing exactly when the flag
    [enableCustomResolver] of the plugin data is there and falsy, or the
    path is empty, or the importer is missing or empty, or the path begins
    with the null character, or the path begins with [virtual-module:].
    Otherwise it returns an adapter made of the package cache, phase, build
    and kind of the call, with a request whose specifier is the path and
    whose [fromFile] is the importer, cleaned and, on Windows, with
    backslashes for slashes. *)
Theorem create_declines_iff (args : CreateArgs.t) :
  let flag := enableCustomResolver (CreateArgs.pluginData args) in
  let path := CreateArgs.path args in
  (create args = None
   ↔ (Js.nullish flag = false ∧ Js.truthy flag = false)
     ∨ path = ""
     ∨ (CreateArgs.importer args = None ∨ CreateArgs.importer args = Some "")
     ∨ (∃ tail, path = String Ascii.zero tail)
     ∨ (∃ tail, path = "virtual-module:" +:+ tail))
  ∧ (∀ created, create args = Some created →
       ∃ importer,
         CreateArgs.importer args = Some importer
         ∧ ModuleRequest.specifier (Created.initialState created) = path
         ∧ ModuleRequest.fromFile (Created.initialState created)
           = (if String.eqb platform "win32"
              then Js.backslashes (cleanUrl importer)
              else cleanUrl importer)
         ∧ Created.adapter created
           = {| packageCache := CreateArgs.packageCache args;
                phase := CreateArgs.phase args;
                context := CreateArgs.build args;
                kind := CreateArgs.kind args |}).
Proof.
  intros flag path. unfold create. fold flag path.
  destruct (negb (Js.truthy (Js.coalesce flag (Js.Bool true)))) eqn:Hflag.
  { apply flag_disables_spec in Hflag. split; [|done].
    split; [by left | done]. }
  assert (¬ (Js.nullish flag = false ∧ Js.truthy flag = false)) as Hkeeps.
  { rewrite <- flag_disables_spec. by rewrite Hflag. }
  destruct (CreateArgs.importer args) as [importer|]; [|split; [|done]].
  2: { split; [|done]. intros _. right. right. left. by left. }
  destruct (Js.truthy_string path) eqn:Hpath; simpl.
  2: { split; [|done]. split; [|done]. intros _. right. left.
       apply not_true_iff_false in Hpath. rewrite truthy_string_spec in Hpath.
       by destruct (decide (path = "")). }
  destruct (Js.truthy_string importer) eqn:Himporter; simpl.
  2: { split; [|done]. split; [|done]. intros _. right. right. left. right.
       apply not_true_iff_false in Himporter.
       rewrite truthy_string_spec in Himporter.
       by destruct (decide (importer = "")) as [->|]. }
  destruct (Js.first_char_differs path Ascii.zero) eqn:Hnull; simpl.
  2: { split; [|done]. split; [|done]. intros _. do 3 right. left.
       by apply first_char_differs_spec. }
  destruct (Js.startsWith path "virtual-module:") eqn:Hvirtual; simpl.
  { split; [|done]. split; [|done]. intros _. do 4 right.
    by apply startsWith_spec. }
  apply truthy_string_spec in Hpath, Himporter.
  split.
  - split; [done|]. intros [?|[?|[[?|[= ?]]|[Hn|Hv]]]]; try done.
    + apply first_char_differs_spec in Hn. congruence.
    + apply startsWith_spec in Hv. congruence.
  - intros created [= <-]. by exists importer.
Qed.

(** C9. [notFoundResponse] makes a not-found resolution that carries one
    message, whose text is [module not found] followed by the specifier of
    the request.  It is a value: it depends on no adapter, host or
    channel. *)
Theorem notFoundResponse_message (self : EsBuildRequestAdapter.t)
    (request : ModuleRequest.t) :
  (∃ message,
     notFoundResponse self request
     = not_found {|
         OnResolveResult.errors := Some [message];
         OnResolveResult.warnings := None;
         OnResolveResult.path := None;
         OnResolveResult.external := None;
         OnResolveResult.sideEffects := None;
         OnResolveResult.namespace := None;
         OnResolveResult.suffix := None;
         OnResolveResult.pluginData := Js.Undefined |}
     ∧ diagnostics (notFoundResponse self request) = Some [message]
     ∧ text message
       = "module not found " +:+ ModuleRequest.specifier request)
  ∧ ∀ self', notFoundResponse self' request = notFoundResponse self request.
Proof. split; [|done]. by eexists. Qed.

End AdapterFacts.

(** ** Runs on the small application *)
Section Runs.
Import Esbuild Core EsBuildRequestAdapter Observe Scenario.

(** Whether the policy applies to a closed call, by running its test. *)
Local Ltac policy_applies :=
  apply boundaryTest_spec; vm_compute; reflexivity.
Local Ltac policy_does_not_apply :=
  rewrite <- boundaryTest_spec; vm_compute; discriminate.

Example notFoundResponse_lodash_foo :
  diagnostics
    (notFoundResponse (adapter other (host (answer "" false "file") []))
       (request "lodash/foo" "/app/app.js"))
  = Some [ {| text := "module not found lodash/foo"; rest := Js.Undefined |} ].
Proof. reflexivity. Qed.

Example create_entry_point_declined :
  create {| CreateArgs.packageCache := packageCache;
            CreateArgs.phase := bundling;
            CreateArgs.build := host (answer "" false "file") [];
            CreateArgs.kind := entry_point;
            CreateArgs.path := "/app/index.html";
            CreateArgs.importer := Some "";
            CreateArgs.pluginData := Js.Undefined |}
  = None.
Proof. reflexivity. Qed.

Example create_reentrant_call_declined :
  let self := adapter bundling (host (answer "" false "file") []) in
  let request := request "lodash" "/app/app.js" in
  create {| CreateArgs.packageCache := packageCache;
            CreateArgs.phase := bundling;
            CreateArgs.build := host (answer "" false "file") [];
            CreateArgs.kind := import_statement;
            CreateArgs.path := "lodash";
            CreateArgs.importer := Some "/app/app.js";
            CreateArgs.pluginData :=
              ResolveOptions.pluginData (resolveOptions self request) |}
  = None.
Proof. reflexivity. Qed.

(** An import of a dependency from a file of the app is taken up. *)
Lemma create_declines_iff_witness :
  let args := {|
    CreateArgs.packageCache := packageCache;
    CreateArgs.phase := bundling;
    CreateArgs.build := host (answer "" false "file") [];
    CreateArgs.kind := import_statement;
    CreateArgs.path := "lodash";
    CreateArgs.importer := Some "/app/app.js";
    CreateArgs.pluginData := Js.Undefined |} in
  ∃ created,
    create args = Some created
    ∧ ModuleRequest.specifier (Created.initialState created) = "lodash"
    ∧ ModuleRequest.fromFile (Created.initialState created) = "/app/app.js".
Proof.
  intros args.
  destruct (create args) as [created|] eqn:Hcreate; [|discriminate Hcreate].
  exists created. split; [reflexivity|].
  destruct (proj2 (create_declines_iff args) created Hcreate)
    as (importer & [= <-] & Hspecifier & HfromFile & _).
  split; [exact Hspecifier | exact HfromFile].
Defined.

(** A dependency that vite externalized and the rollup plugin found on
    disk: the filename is the one the plugin wrote. *)
Lemma resolve_reports_channel_filename_witness :
  let self :=
    adapter bundling
      (host (answer "lodash" true "file")
         [("lodash", Channel.found "/app/node_modules/lodash/index.js")]) in
  let request := request "lodash" "/app/node_modules/dep/index.js" in
  ResolveResult.errors (hostResult self request None) = []
  ∧ consumedStatus self request None
    = Channel.found "/app/node_modules/lodash/index.js"
  ∧ ¬ boundaryApplies self (hostResult self request None)
  ∧ (resolve self request None).1
    = Normal (found "/app/node_modules/lodash/index.js"
                (OnResolveResult.of_resolved (hostResult self request None))
                None).
Proof.
  intros self request.
  assert (ResolveResult.errors (hostResult self request None) = [])
    as Herrors by reflexivity.
  assert (consumedStatus self request None
          = Channel.found "/app/node_modules/lodash/index.js")
    as Hstatus by by_running.
  assert (¬ boundaryApplies self (hostResult self request None)) as Happlies.
  { policy_does_not_apply. }
  split; [exact Herrors|]. split; [exact Hstatus|]. split; [exact Happlies|].
  destruct (resolve_reports_channel_filename self request None Herrors)
    as (filename & Hrun & Hfound & _); [by rewrite Hstatus | exact Happlies |].
  rewrite Hrun. simpl. f_equal. f_equal. by apply Hfound.
Defined.

(** C2 as stated fails: the host reports no error for a file of the app in
    namespace [file] during bundling, yet [resolve] answers not found,
    because the status read back is [not_found]. *)
Lemma boundary_policy_not_reached_after_not_found :
  let self :=
    adapter bundling
      (host (answer "/app/components/hello.js" false "file")
         [("my-app/components/hello", Channel.not_found)]) in
  let request :=
    request "my-app/components/hello" "/app/node_modules/dep/index.js" in
  ResolveResult.errors (hostResult self request None) = []
  ∧ boundaryApplies self (hostResult self request None)
  ∧ (resolve self request None).1
    = Normal (not_found
                (OnResolveResult.of_resolved (hostResult self request None)))
  ∧ ¬ ∃ name, (resolve self request None).1
              = Normal (found name (externalized name) None).
Proof.
  intros self request.
  assert ((resolve self request None).1
          = Normal (not_found
                      (OnResolveResult.of_resolved
                         (hostResult self request None)))) as Hrun
    by by_running.
  split; [reflexivity|]. split.
  { policy_applies. }
  split; [exact Hrun|].
  intros [name Hfound]. rewrite Hrun in Hfound. discriminate Hfound.
Qed.

(** The same call with nothing written to the channel: the policy
    applies. *)
Lemma boundary_policy_iff_witness :
  let self :=
    adapter bundling
      (host (answer "/app/components/hello.js" false "file") []) in
  let request :=
    request "my-app/components/hello" "/app/node_modules/dep/index.js" in
  ResolveResult.errors (hostResult self request None) = []
  ∧ consumedStatus self request None ≠ Channel.not_found
  ∧ boundaryApplies self (hostResult self request None)
  ∧ (resolve self request None).1
    = Normal (found "my-app/components/hello"
                (externalized "my-app/components/hello") None).
Proof.
  intros self request.
  assert (ResolveResult.errors (hostResult self request None) = [])
    as Herrors by reflexivity.
  assert (consumedStatus self request None ≠ Channel.not_found) as Hstatus
    by by_running.
  assert (boundaryApplies self (hostResult self request None)) as Happlies.
  { policy_applies. }
  split; [exact Herrors|]. split; [exact Hstatus|]. split; [exact Happlies|].
  destruct (boundary_policy_iff self request None Herrors Hstatus)
    as (_ & Hfires & _).
  destruct (Hfires Happlies) as (pkg & name & Howner & -> & Hrun & _).
  rewrite Hrun. injection Howner as <-. reflexivity.
Defined.

(** The relative specifier of the app's own widget. *)
Lemma externalized_name_of_specifier_witness :
  let self :=
    adapter bundling (host (answer "/app/widgets/button.js" false "file") []) in
  let request := request "./widgets/button" "/app/node_modules/dep/index.js" in
  ResolveResult.errors (hostResult self request None) = []
  ∧ consumedStatus self request None ≠ Channel.not_found
  ∧ boundaryApplies self (hostResult self request None)
  ∧ (resolve self request None).1
    = Normal (found "my-app/widgets/button"
                (externalized "my-app/widgets/button") None).
Proof.
  intros self request.
  assert (ResolveResult.errors (hostResult self request None) = [])
    as Herrors by reflexivity.
  assert (consumedStatus self request None ≠ Channel.not_found) as Hstatus
    by by_running.
  assert (boundaryApplies self (hostResult self request None)) as Happlies.
  { policy_applies. }
  split; [exact Herrors|]. split; [exact Hstatus|]. split; [exact Happlies|].
  destruct (externalized_name_of_specifier self request None
              Herrors Hstatus Happlies)
    as (pkg & name & Howner & Hrun & _ & Hrelative).
  assert (pkg = appPackage) as ->
    by (vm_compute in Howner; by injection Howner).
  destruct Hrelative as [Hexternal _]; [left; by_running|].
  rewrite Hrun. simpl.
  rewrite (Hexternal "my-app/widgets/button");
    [reflexivity | by_running | discriminate].
Defined.

(** C7 as stated fails: the manifest of the app exports its entry point
    only, a dependency imports a file of the app by its absolute path, and
    [externalName] finds nothing for that path; the filename of the
    externalized resolution is then the very path the host resolved to. *)
Lemma externalized_filename_is_raw_path :
  let self :=
    adapterOf sealedPackage bundling
      (host (answer "/app/app.js" false "file") []) in
  let request := request "/app/app.js" "/app/node_modules/dep/index.js" in
  phase self = bundling
  ∧ ResolveResult.errors (hostResult self request None) = []
  ∧ ResolveResult.namespace (hostResult self request None) = "file"
  ∧ boundaryApplies self (hostResult self request None)
  ∧ (resolve self request None).1
    = Normal (found (ResolveResult.path (hostResult self request None))
                (externalized "/app/app.js") None).
Proof.
  intros self request.
  split; [reflexivity|]. split; [reflexivity|]. split; [reflexivity|].
  split; [policy_applies | by_running].
Qed.

(** The same import where the manifest has no exports: the filename is the
    path under the name of the app. *)
Lemma externalized_filename_is_path_iff_witness :
  let self :=
    adapter bundling (host (answer "/app/app.js" false "file") []) in
  let request := request "/app/app.js" "/app/node_modules/dep/index.js" in
  ResolveResult.errors (hostResult self request None) = []
  ∧ consumedStatus self request None ≠ Channel.not_found
  ∧ boundaryApplies self (hostResult self request None)
  ∧ ∃ name,
      (resolve self request None).1
      = Normal (found name (externalized name) None)
      ∧ name ≠ ResolveResult.path (hostResult self request None).
Proof.
  intros self request.
  assert (ResolveResult.errors (hostResult self request None) = [])
    as Herrors by reflexivity.
  assert (consumedStatus self request None ≠ Channel.not_found) as Hstatus
    by by_running.
  assert (boundaryApplies self (hostResult self request None)) as Happlies.
  { policy_applies. }
  split; [exact Herrors|]. split; [exact Hstatus|]. split; [exact Happlies|].
  destruct (externalized_filename_is_path_iff self request None
              Herrors Hstatus Happlies)
    as (pkg & name & Howner & Hrun & _ & Hiff).
  assert (pkg = appPackage) as ->
    by (vm_compute in Howner; by injection Howner).
  exists name. rewrite Hrun. split; [reflexivity|].
  intros Hname. apply Hiff in Hname as [[_ [Hpackage | Hnothing]] | Hfound].
  - vm_compute in Hpackage. discriminate Hpackage.
  - vm_compute in Hnothing. discriminate Hnothing.
  - destruct Hfound as (_ & _ & Hexternal).
    vm_compute in Hexternal. discriminate Hexternal.
Defined.

(** A specifier vite externalized and the rollup plugin did not find. *)
Lemma resolve_not_found_without_message_witness :
  let self :=
    adapter bundling
      (host (answer "lodash/missing" true "file")
         [("lodash/missing", Channel.not_found)]) in
  let request := request "lodash/missing" "/app/node_modules/dep/index.js" in
  ResolveResult.errors (hostResult self request None) = []
  ∧ consumedStatus self request None = Channel.not_found
  ∧ diagnostics
      (match (resolve self request None).1 with
       | Normal resolution => resolution
       | Throw _ => notFoundResponse self request
       end)
    = Some [].
Proof.
  intros self request.
  assert (ResolveResult.errors (hostResult self request None) = [])
    as Herrors by reflexivity.
  assert (consumedStatus self request None = Channel.not_found) as Hstatus
    by by_running.
  split; [exact Herrors|]. split; [exact Hstatus|].
  destruct (resolve_not_found_without_message self request None
              Herrors Hstatus)
    as (err & Hrun & _ & Hnone & _).
  rewrite Hrun. exact Hnone.
Defined.

End Runs.

(** ** The declarations plugin *)
Section DeclarationsFacts.
Import Declarations.
Local Close Scope string_scope.
Local Open Scope list_scope.
Implicit Types (input content group after taken rest : list N) (p : N → bool).

Lemma char_Some {R : Type} p input (k : list N → option R) (r : R) :
  char p input k = Some r
  ↔ ∃ c rest, input = c :: rest ∧ p c = true ∧ k rest = Some r.
Proof.
  destruct input as [|c rest]; simpl.
  - split; [done | by intros (? & ? & ? & _)].
  - destruct (p c) eqn:Hp.
    + split; [by exists c, rest | by intros (? & ? & [= <- <-] & _ & ?)].
    + split; [done | intros (? & ? & [= <- <-] & ? & _); congruence].
Qed.

Lemma literal_Some {R : Type} (pattern : list N) input
    (k : list N → option R) (r : R) :
  literal pattern input k = Some r
  ↔ ∃ rest, input = pattern ++ rest ∧ k rest = Some r.
Proof.
  revert input. induction pattern as [|t pattern IH]; intros input; simpl.
  - split; [by exists input | by intros (? & -> & ?)].
  - rewrite char_Some. split.
    + intros (c & rest & -> & Heq & Hk). apply N.eqb_eq in Heq as ->.
      apply IH in Hk as (rest' & -> & Hk). by exists rest'.
    + intros (rest & -> & Hk). exists t, (pattern ++ rest).
      split; [done|]. split; [apply N.eqb_refl|]. apply IH. by exists rest.
Qed.

(** A success of [star] is a success of its continuation on a run of the
    class. *)
Lemma star_sound {R : Type} p input (k : list N → list N → option R) (r : R) :
  star p input k = Some r →
  ∃ taken rest,
    input = taken ++ rest ∧ forallb p taken = true ∧ k taken rest = Some r.
Proof.
  revert k. induction input as [|c input IH]; intros k; simpl.
  - intros Hk. by exists [], [].
  - destruct (p c) eqn:Hp; [|intros Hk; by exists [], (c :: input)].
    destruct (star p input _) as [r'|] eqn:Hstar.
    + intros [= ->]. apply IH in Hstar as (taken & rest & -> & Hall & Hk).
      exists (c :: taken), rest. simpl. by rewrite Hp, Hall.
    + intros Hk. by exists [], (c :: input).
Qed.

(** [star] succeeds when its continuation does on some run of the class:
    on that run or on a longer one. *)
Lemma star_complete {R : Type} p taken rest
    (k : list N → list N → option R) :
  forallb p taken = true → is_Some (k taken rest) →
  is_Some (star p (taken ++ rest) k).
Proof.
  revert k. induction taken as [|c taken IH]; intros k Hall Hk; simpl.
  - destruct rest as [|c rest]; simpl; [done|].
    destruct (p c); [|done]. by destruct (star p rest _).
  - simpl in Hall. apply andb_true_iff in Hall as [Hp Hall]. rewrite Hp.
    destruct (IH (λ taken', k (c :: taken')) Hall Hk) as [r ->]. done.
Qed.

Lemma plus_sound {R : Type} p input (k : list N → list N → option R) (r : R) :
  plus p input k = Some r →
  ∃ taken rest,
    input = taken ++ rest ∧ taken ≠ [] ∧ forallb p taken = true
    ∧ k taken rest = Some r.
Proof.
  destruct input as [|c input]; simpl; [done|].
  destruct (p c) eqn:Hp; [|done].
  intros (taken & rest & -> & Hall & Hk)%star_sound.
  exists (c :: taken), rest. simpl. by rewrite Hp, Hall.
Qed.

Lemma plus_complete {R : Type} p taken rest
    (k : list N → list N → option R) :
  taken ≠ [] → forallb p taken = true → is_Some (k taken rest) →
  is_Some (plus p (taken ++ rest) k).
Proof.
  destruct taken as [|c taken]; [done|]. intros _ Hall Hk. simpl in *.
  apply andb_true_iff in Hall as [-> Hall].
  by apply (star_complete p taken rest (λ taken', k (c :: taken'))).
Qed.

(** A run of a class that ends before a code unit outside the class ends
    in one place only. *)
Lemma run_unique p (run1 run2 : list N) (x1 x2 : N) (rest1 rest2 : list N) :
  forallb p run1 = true → forallb p run2 = true →
  p x1 = false → p x2 = false →
  run1 ++ x1 :: rest1 = run2 ++ x2 :: rest2 →
  run1 = run2 ∧ x1 = x2 ∧ rest1 = rest2.
Proof.
  revert run2. induction run1 as [|c run1 IH]; intros [|c' run2]; simpl;
    intros H1 H2 Hx1 Hx2 Heq.
  - by injection Heq as -> ->.
  - injection Heq as -> _. apply andb_true_iff in H2 as [? _]. congruence.
  - injection Heq as -> _. apply andb_true_iff in H1 as [? _]. congruence.
  - injection Heq as -> Heq.
    apply andb_true_iff in H1 as [_ H1']. apply andb_true_iff in H2 as [_ H2'].
    destruct (IH run2 H1' H2' Hx1 Hx2 Heq) as (-> & -> & ->). done.
Qed.

Lemma quote_cases (c : N) : isQuote c = true ↔ c = 39%N ∨ c = 34%N.
Proof. unfold isQuote. rewrite orb_true_iff, !N.eqb_eq. done. Qed.

Lemma quote_not_space (c : N) : isQuote c = true → isWhiteSpace c = false.
Proof. rewrite quote_cases. by intros [-> | ->]. Qed.

Lemma quote_not_notQuote (c : N) : isQuote c = true → notQuote c = false.
Proof. unfold notQuote. by intros ->. Qed.

Lemma isImport_unique group group' after after' input :
  isImport group after input → isImport group' after' input →
  group = group' ∧ after = after'.
Proof.
  intros (spaces & opening & closing & -> & _ & Hspaces & Hopen & Hclose
          & _ & Hgroup)
         (spaces' & opening' & closing' & Heq & _ & Hspaces' & Hopen' & Hclose'
          & _ & Hgroup').
  apply app_inv_head in Heq.
  apply run_unique with (p := isWhiteSpace) in Heq as (_ & _ & Heq);
    [|done || by apply quote_not_space ..].
  rewrite !(app_assoc _ (units ".gts")) in Heq.
  apply run_unique with (p := notQuote) in Heq as (Heq & _ & ->);
    [| rewrite ?forallb_app, ?Hgroup, ?Hgroup'; done
         || by apply quote_not_notQuote ..].
  by apply app_inv_tail in Heq as ->.
Qed.

Lemma exec_sound input group after :
  exec input = Some (group, after) → isImport group after input.
Proof.
  unfold exec.
  intros (rest1 & -> & H1)%literal_Some.
  apply plus_sound in H1 as (spaces & rest2 & -> & ? & ? & H2).
  apply char_Some in H2 as (opening & rest3 & -> & ? & H3).
  apply plus_sound in H3 as (group' & rest4 & -> & ? & ? & H4).
  apply literal_Some in H4 as (rest5 & -> & H5).
  apply char_Some in H5 as (closing & rest6 & -> & ? & [= <- <-]).
  by exists spaces, opening, closing.
Qed.

Lemma exec_complete input group after :
  isImport group after input → exec input = Some (group, after).
Proof.
  intros Himport.
  assert (is_Some (exec input)) as [[group' after'] Hexec].
  { destruct Himport as (spaces & opening & closing & -> & ? & ? & Hopen
                         & Hclose & ? & ?).
    unfold exec.
    set (k4 := λ group0 rest, literal (units ".gts") rest _).
    set (k2 := λ (_ : list N) rest, char isQuote rest _).
    assert (is_Some (plus notQuote (group ++ units ".gts" ++ closing :: after)
                       k4)) as [r4 Hk4].
    { apply plus_complete; [done..|]. exists (group, after). subst k4.
      apply literal_Some. eexists. split; [done|]. simpl. by rewrite Hclose. }
    assert (is_Some (plus isWhiteSpace
                       (spaces ++ opening :: group ++ units ".gts"
                          ++ closing :: after) k2)) as [r2 Hk2].
    { apply plus_complete; [done..|]. exists r4. subst k2. simpl.
      by rewrite Hopen. }
    exists r2. apply literal_Some. by eexists. }
  rewrite Hexec.
  destruct (isImport_unique _ _ _ _ _ (exec_sound _ _ _ Hexec) Himport)
    as [-> ->]. done.
Qed.

Lemma isImport_length group after input :
  isImport group after input →
  length group + length after + 11 ≤ length input.
Proof.
  intros (spaces & opening & closing & -> & Hspaces & _).
  rewrite !length_app. simpl. rewrite !length_app. simpl.
  destruct spaces; [done|]. simpl. lia.
Qed.

(** Steps beyond the length of the text are never used. *)
Lemma replaceFrom_steps (steps steps' : nat) input :
  length input ≤ steps → length input ≤ steps' →
  replaceFrom steps input = replaceFrom steps' input.
Proof.
  revert steps' input.
  induction steps as [|steps IH]; intros [|steps'] [|c rest];
    cbn [replaceFrom length]; intros Hsteps Hsteps'; try done; try lia.
  destruct (exec (c :: rest)) as [[group after]|] eqn:Hexec.
  - apply exec_sound, isImport_length in Hexec. cbn [length] in Hexec.
    f_equal. apply IH; lia.
  - f_equal. apply IH; lia.
Qed.

Lemma fixDeclarations_nil : fixDeclarations [] = [].
Proof. done. Qed.

Lemma fixDeclarations_keep (c : N) rest :
  exec (c :: rest) = None →
  fixDeclarations (c :: rest) = c :: fixDeclarations rest.
Proof.
  intros Hexec. unfold fixDeclarations. cbn [replaceFrom length].
  by rewrite Hexec.
Qed.

Lemma fixDeclarations_match input group after :
  exec input = Some (group, after) →
  fixDeclarations input = replacement group ++ fixDeclarations after.
Proof.
  intros Hexec. unfold fixDeclarations.
  pose proof (isImport_length _ _ _ (exec_sound _ _ _ Hexec)) as Hlength.
  destruct input as [|c rest]; [done|]. cbn [replaceFrom length] in *.
  rewrite Hexec. f_equal. apply replaceFrom_steps; lia.
Qed.

(** Reasoning on [fixDeclarations] follows its three cases. *)
Lemma fixDeclarations_cases (P : list N → list N → Prop) :
  P [] [] →
  (∀ c rest, exec (c :: rest) = None →
             P rest (fixDeclarations rest) →
             P (c :: rest) (c :: fixDeclarations rest)) →
  (∀ input group after,
     isImport group after input →
     P after (fixDeclarations after) →
     P input (replacement group ++ fixDeclarations after)) →
  ∀ input, P input (fixDeclarations input).
Proof.
  intros Hnil Hkeep Hmatch input.
  remember (length input) as n eqn:Hn. revert input Hn.
  induction n as [n IH] using lt_wf_ind. intros [|c rest] ->.
  - done.
  - destruct (exec (c :: rest)) as [[group after]|] eqn:Hexec.
    + rewrite (fixDeclarations_match _ _ _ Hexec).
      apply exec_sound in Hexec. apply Hmatch; [done|].
      apply isImport_length in Hexec. eapply IH; [|done]. lia.
    + rewrite (fixDeclarations_keep _ _ Hexec).
      apply Hkeep; [done|]. eapply IH; [|done]. simpl. lia.
Qed.

Lemma startsWith_app (pattern rest : list N) :
  Declarations.startsWith (pattern ++ rest) pattern = true.
Proof.
  induction pattern as [|c pattern IH]; simpl; [by destruct rest|].
  by rewrite N.eqb_refl, IH.
Qed.

Lemma occurs_here (pattern content : list N) :
  Declarations.startsWith content pattern = true →
  occurs pattern content = true.
Proof. destruct content; simpl; by intros ->. Qed.

Lemma occurs_app (pattern before after' : list N) :
  occurs pattern (before ++ pattern ++ after') = true.
Proof.
  induction before as [|c before IH].
  - change ([] ++ pattern ++ after') with (pattern ++ after').
    apply occurs_here, startsWith_app.
  - cbn [app occurs]. rewrite IH. apply orb_true_r.
Qed.

Lemma occurs_tail (pattern : list N) (c : N) rest :
  occurs pattern (c :: rest) = false → occurs pattern rest = false.
Proof. simpl. by intros [_ ?]%orb_false_iff. Qed.

Lemma occurs_spec (pattern content : list N) :
  occurs pattern content = true
  ↔ ∃ before after', content = before ++ pattern ++ after'.
Proof.
  split.
  - induction content as [|c content IH].
    + destruct pattern; [|done]. by exists [], [].
    + simpl. intros [Hhere | Hlater]%orb_true_iff.
      * clear IH. exists []. simpl.
        revert c content Hhere.
        induction pattern as [|t pattern IH]; intros c content Hhere.
        { by exists (c :: content). }
        simpl in Hhere. apply andb_true_iff in Hhere as [->%N.eqb_eq Hrest].
        destruct content as [|c' content].
        { destruct pattern; [by exists [] | done]. }
        destruct pattern as [|t' pattern]; [by exists (c' :: content)|].
        destruct (IH c' content Hrest) as [after' ->]. by exists after'.
      * destruct (IH Hlater) as (before & after' & ->).
        by exists (c :: before), after'.
  - intros (before & after' & ->). apply occurs_app.
Qed.

(** X10. The regular expression matches at the head of a text exactly when
    the text is [from], one or more white-space code units, a quote, one or
    more code units that are not quotes, [.gts] and a quote; group 1 is then
    the text between the opening quote and [.gts], and the match ends after
    the closing quote. *)
Theorem exec_iff_isImport input group after :
  exec input = Some (group, after) ↔ isImport group after input.
Proof. split; [apply exec_sound | apply exec_complete]. Qed.

Lemma fixDeclarations_head_import input group after :
  isImport group after input →
  fixDeclarations input
  = units "from '" ++ group ++ units "'" ++ fixDeclarations after.
Proof.
  intros Himport. rewrite (fixDeclarations_match input group after).
  - unfold replacement. by rewrite <- !app_assoc.
  - by apply exec_complete.
Qed.

Lemma startsWith_shorten (pattern content more : list N) :
  Declarations.startsWith (content ++ more) pattern = true →
  length pattern ≤ length content →
  Declarations.startsWith content pattern = true.
Proof.
  revert content. induction pattern as [|t pattern IH]; intros [|c content];
    cbn [app length Declarations.startsWith]; intros Hstarts Hlength.
  - done.
  - done.
  - lia.
  - apply andb_true_iff in Hstarts as [-> Hstarts]. simpl.
    apply IH; [done | lia].
Qed.

Lemma exec_startsWith input group after :
  exec input = Some (group, after) →
  Declarations.startsWith input (units "from") = true.
Proof.
  intros (spaces & opening & closing & -> & _)%exec_sound.
  apply startsWith_app.
Qed.

(** X11. An import of a [.gts] file is replaced by [from], one space, and
    its path without the extension between single quotes, whatever the
    white space and the quotes were, and whatever text stands before it in
    which no [from] begins; that text is kept and the text after the import
    is processed on its own. *)
Theorem fixDeclarations_import (before input group after : list N) :
  isImport group after input →
  occurs (units "from") (before ++ units "fro") = false →
  fixDeclarations (before ++ input)
  = before ++ units "from '" ++ group ++ units "'" ++ fixDeclarations after.
Proof.
  intros Himport. induction before as [|c before IH]; intros Hnone.
  - by apply fixDeclarations_head_import.
  - cbn [app]. rewrite fixDeclarations_keep.
    + f_equal. apply IH. by apply occurs_tail in Hnone.
    + destruct (exec (c :: before ++ input)) as [[group' after']|] eqn:Hexec;
        [|done].
      apply exec_startsWith in Hexec.
      destruct Himport as (spaces & opening & closing & -> & _).
      assert (Declarations.startsWith ((c :: before) ++ units "fro")
                (units "from") = true) as Hstarts.
      { revert Hexec.
        replace (c :: before ++ units "from" ++ spaces ++ opening :: group
                   ++ units ".gts" ++ closing :: after)
          with (((c :: before) ++ units "fro")
                  ++ (units "m" ++ spaces ++ opening :: group
                        ++ units ".gts" ++ closing :: after))
          by (by rewrite <- app_assoc).
        intros Hexec. apply (startsWith_shorten _ _ _ Hexec).
        rewrite length_app. simpl. lia. }
      apply occurs_here in Hstarts. cbn [app] in Hstarts, Hnone. congruence.
Qed.

(** X12. [fixDeclarations] never makes a text longer: it returns the text
    as it is, or a text at least four code units shorter. *)
Theorem fixDeclarations_length content :
  fixDeclarations content = content
  ∨ length (fixDeclarations content) + 4 ≤ length content.
Proof.
  apply (fixDeclarations_cases
           (λ input output, output = input ∨ length output + 4 ≤ length input)).
  - by left.
  - intros c rest _ [-> | Hshorter]; [by left | right; simpl; lia].
  - intros input group after Himport IH. right.
    apply isImport_length in Himport.
    assert (length (fixDeclarations after) ≤ length after)
      by (destruct IH as [-> | ?]; lia).
    unfold replacement. rewrite !length_app. simpl. lia.
Qed.

(** X13. A text in which [from] does not occur, or in which [.gts] does
    not occur, is returned as it is. *)
Theorem fixDeclarations_unchanged content :
  occurs (units "from") content = false
  ∨ occurs (units ".gts") content = false →
  fixDeclarations content = content.
Proof.
  apply (fixDeclarations_cases
           (λ input output,
              occurs (units "from") input = false
              ∨ occurs (units ".gts") input = false → output = input)).
  - done.
  - intros c rest _ IH Hnone. f_equal. apply IH.
    destruct Hnone as [?%occurs_tail | ?%occurs_tail]; [by left | by right].
  - intros input group after
      (spaces & opening & closing & -> & _) _ [Hnone | Hnone].
    + rewrite occurs_here in Hnone; [done | apply startsWith_app].
    + replace (units "from" ++ spaces ++ opening :: group
                 ++ units ".gts" ++ closing :: after)
        with ((units "from" ++ spaces ++ opening :: group)
                ++ units ".gts" ++ closing :: after) in Hnone
        by (by rewrite <- !app_assoc).
      by rewrite occurs_app in Hnone.
Qed.

End DeclarationsFacts.

(** ** More on the channel *)
Section ChannelLaws.
Import Channel Writes.
Implicit Types (id : string) (g : Global) (status : InternalStatus).

(** X1. What is written for an id that was just requested is what the next
    read returns, whatever the channel held before; after the read the
    channel holds what it held before, less the id. *)
Theorem request_write_read id status g :
  readStatus id (writeStatus id status (requestStatus id g))
  = (status, Some (delete id (entries g))).
Proof.
  unfold readStatus, writeStatus, requestStatus.
  destruct g as [channel|]; simpl; rewrite lookup_insert_eq; simpl;
    by rewrite lookup_insert_eq, insert_insert_eq, delete_insert_eq.
Qed.

Lemma writeStatus_settled id id' status status' g :
  entries g !! id = Some status → status ≠ pending →
  entries (writeStatus id' status' g) !! id = Some status.
Proof.
  intros Hid Hstatus. destruct (decide (id' = id)) as [->|Hne].
  - rewrite entries_writeStatus_other; [done | congruence].
  - destruct (decide (entries g !! id' = Some pending)).
    + by rewrite entries_writeStatus_pending, lookup_insert_ne.
    + by rewrite entries_writeStatus_other.
Qed.

Lemma writeAll_settled id status writes g :
  entries g !! id = Some status → status ≠ pending →
  entries (writeAll writes g) !! id = Some status.
Proof.
  revert g. induction writes as [|[id' status'] writes IH]; intros g Hid Hs;
    [done|].
  apply IH; [|done]. by apply writeStatus_settled.
Qed.

Lemma writeAll_pending id writes g :
  entries g !! id = Some pending →
  entries (writeAll writes g) !! id = Some (firstSettled id writes).
Proof.
  revert g. induction writes as [|[id' status'] writes IH]; intros g Hid;
    [done|].
  cbn [writeAll foldl firstSettled fst snd].
  destruct (String.eqb_spec id' id) as [->|Hne]; simpl.
  - destruct status'; simpl.
    + apply IH. by rewrite entries_writeStatus_pending, lookup_insert_eq.
    + apply (writeAll_settled id not_found); [|done].
      by rewrite entries_writeStatus_pending, lookup_insert_eq.
    + apply (writeAll_settled id (found filename)); [|done].
      by rewrite entries_writeStatus_pending, lookup_insert_eq.
  - apply IH. destruct (decide (entries g !! id' = Some pending)).
    + by rewrite entries_writeStatus_pending, lookup_insert_ne.
    + by rewrite entries_writeStatus_other.
Qed.

(** X2. Of the writes that follow a request of an id, the first to that id
    with a status other than [pending] wins: the read returns its status,
    whatever was written after it, and [pending] when there was none. *)
Theorem first_settled_write_wins id
    (writes : list (string * InternalStatus)) g :
  (readStatus id (writeAll writes (requestStatus id g))).1
  = firstSettled id writes.
Proof.
  rewrite readStatus_value, (writeAll_pending id); [done|].
  by rewrite entries_requestStatus, lookup_insert_eq.
Qed.

(** X3. A request, a write and a read of one id leave the entry of every
    other id as it was. *)
Theorem channel_other_ids_untouched id id' status g :
  id ≠ id' →
  entries (requestStatus id g) !! id' = entries g !! id'
  ∧ entries (writeStatus id status g) !! id' = entries g !! id'
  ∧ entries (readStatus id g).2 !! id' = entries g !! id'.
Proof.
  intros Hne. split; [|split].
  - by rewrite entries_requestStatus, lookup_insert_ne.
  - destruct (decide (entries g !! id = Some pending)).
    + by rewrite entries_writeStatus_pending, lookup_insert_ne.
    + by rewrite entries_writeStatus_other.
  - by rewrite entries_readStatus, lookup_delete_ne.
Qed.

Lemma channel_other_ids_untouched_witness :
  let g := requestStatus "lodash" None in
  "lodash/foo" ≠ "lodash"
  ∧ entries (writeStatus "lodash/foo" not_found g) !! "lodash"
    = Some pending.
Proof.
  intros g.
  assert ("lodash/foo" ≠ "lodash") as Hne by discriminate.
  split; [exact Hne|].
  rewrite (proj1 (proj2
    (channel_other_ids_untouched "lodash/foo" "lodash" not_found g Hne))).
  by_running.
Defined.

End ChannelLaws.

(** ** More on the adapter *)
Section AdapterLaws.
Import Esbuild Core EsBuildRequestAdapter Observe.
Context `{Imports}.
Implicit Types (self : EsBuildRequestAdapter.t) (request : ModuleRequest.t)
               (g : Channel.Global).

(** X4. However [resolve] ends, it leaves no entry for its specifier in
    the channel, and for every other id the entry the host call left. *)
Theorem resolve_consumes_entry self request g :
  let final := (resolve self request g).2 in
  Channel.entries final
  = delete (ModuleRequest.specifier request)
      (Channel.entries (hostCall self request g).2)
  ∧ Channel.entries final !! ModuleRequest.specifier request = None.
Proof.
  cbv zeta. rewrite resolve_run. cbn [snd]. unfold finalGlobal.
  rewrite entries_readStatus. split; [done | apply lookup_delete_eq].
Qed.

(** X5. The call [resolve] makes to the host is one [create] declines,
    whatever its path, importer, kind and phase: the adapter does not
    intercept its own request. *)
Theorem create_declines_own_request self request
    (packageCache : PackageCache.t) (phase : Phase) (build : PluginBuild.t)
    (kind : ImportKind) (path : string) (importer : option string) :
  create {|
    CreateArgs.packageCache := packageCache;
    CreateArgs.phase := phase;
    CreateArgs.build := build;
    CreateArgs.kind := kind;
    CreateArgs.path := path;
    CreateArgs.importer := importer;
    CreateArgs.pluginData :=
      ResolveOptions.pluginData (resolveOptions self request);
  |} = None.
Proof. done. Qed.

(** X6. When [create] takes a call, [resolve] of the adapter it made, on
    the request it made, asks the build of the call: for the path of the
    call, marked pending first, with the cleaned importer as importer and
    its directory as [resolveDir], the kind of the call, the interception
    turned off and the meta of the call's plugin data.  What [resolve]
    returns is made of the answer to that one question and of the status
    read back after it. *)
Theorem create_then_resolve_asks_host (args : CreateArgs.t)
    (created : Created.t) g :
  create args = Some created →
  ∃ importer,
    CreateArgs.importer args = Some importer
    ∧ let fromFile :=
        if String.eqb platform "win32" then Js.backslashes (cleanUrl importer)
        else cleanUrl importer in
      let options := {|
        ResolveOptions.importer := fromFile;
        ResolveOptions.resolveDir := dirname fromFile;
        ResolveOptions.kind := CreateArgs.kind args;
        ResolveOptions.pluginData :=
          Js.Obj [("embroider",
                   Js.Obj [("enableCustomResolver", Js.Bool false);
                           ("meta",
                            Js.optchain
                              (Js.optchain (CreateArgs.pluginData args)
                                 "embroider")
                              "meta")])] |} in
      let answered :=
        PluginBuild.resolve (CreateArgs.build args) (CreateArgs.path args)
          options (Channel.requestStatus (CreateArgs.path args) g) in
      let read := Channel.readStatus (CreateArgs.path args) answered.2 in
      ∃ resolution,
        resolve (Created.adapter created) (Created.initialState created) g
        = (Normal resolution, read.2)
        ∧ (ResolveResult.errors answered.1 ≠ []
           ∨ read.1 = Channel.not_found →
           resolution = not_found (OnResolveResult.of_resolved answered.1))
        ∧ (ResolveResult.errors answered.1 = [] →
           read.1 ≠ Channel.not_found →
           ∃ filename result,
             resolution = found filename result None
             ∧ (result = OnResolveResult.of_resolved answered.1
                ∨ CreateArgs.phase args = bundling
                  ∧ result = externalized filename)).
Proof.
  unfold create.
  destruct (negb _); [done|].
  destruct (CreateArgs.importer args) as [importer|]; [|done].
  destruct (_ && _); [|done].
  intros [= <-]. exists importer. split; [done|]. cbv zeta.
  rewrite resolve_run. unfold finalGlobal, consumedStatus, hostResult, hostCall.
  cbn [Created.adapter Created.initialState ModuleRequest.specifier context].
  match goal with
  | |- context [Channel.readStatus _ (PluginBuild.resolve ?b ?p ?o ?g').2] =>
      set (answered := PluginBuild.resolve b p o g')
  end.
  unfold resolveOptions in answered.
  cbn [ModuleRequest.fromFile ModuleRequest.meta kind] in answered.
  fold answered.
  set (read := Channel.readStatus (CreateArgs.path args) answered.2).
  eexists. split; [reflexivity|].
  destruct (_ || _) eqn:Hguard.
  - split; [done|]. intros Herrors Hstatus.
    assert ((0 <? length (ResolveResult.errors answered.1))%nat
            || Channel.is_not_found read.1 = false) as Hpast
      by (by apply guard_spec).
    congruence.
  - split.
    { intros Hnot. apply guard_spec in Hguard as [? ?]. tauto. }
    intros _ _. destruct (boundaryTest _ _) eqn:Htest.
    + eexists _, _. split; [reflexivity|]. right. split; [|done].
      unfold boundaryTest in Htest. cbn [phase] in Htest.
      by destruct (CreateArgs.phase args).
    + eexists _, _. split; [reflexivity|]. by left.
Qed.

Lemma backslashes_no_slash (s : string) :
  ¬ In "/"%char (list_ascii_of_string (Js.backslashes s)).
Proof.
  induction s as [|c s IH]; simpl; [by intros []|].
  intros [Hhere | Hlater]; [|done].
  destruct (Ascii.eqb_spec c "/"%char); [discriminate Hhere | done].
Qed.

Lemma backslashes_length (s : string) :
  String.length (Js.backslashes s) = String.length s.
Proof. induction s as [|c s IH]; simpl; [done | by rewrite IH]. Qed.

Lemma backslashes_without_slash (s : string) :
  ¬ In "/"%char (list_ascii_of_string s) → Js.backslashes s = s.
Proof.
  induction s as [|c s IH]; simpl; [done|]. intros Hnone.
  destruct (Ascii.eqb_spec c "/"%char) as [->|_]; [by destruct Hnone; left|].
  rewrite IH; [done|]. intros Hin. by destruct Hnone; right.
Qed.

(** X7. On Windows the [fromFile] of the request [create] makes holds no
    slash: it is the cleaned importer with a backslash for every slash, of
    the same length, and the cleaned importer itself when that holds no
    slash.  On every other platform it is the cleaned importer. *)
Theorem create_fromFile_separators (args : CreateArgs.t)
    (created : Created.t) :
  create args = Some created →
  ∃ importer,
    CreateArgs.importer args = Some importer
    ∧ let fromFile := ModuleRequest.fromFile (Created.initialState created) in
      (platform = "win32" →
       ¬ In "/"%char (list_ascii_of_string fromFile)
       ∧ String.length fromFile = String.length (cleanUrl importer)
       ∧ (¬ In "/"%char (list_ascii_of_string (cleanUrl importer)) →
          fromFile = cleanUrl importer))
      ∧ (platform ≠ "win32" → fromFile = cleanUrl importer).
Proof.
  unfold create.
  destruct (negb _); [done|].
  destruct (CreateArgs.importer args) as [importer|]; [|done].
  destruct (_ && _); [|done].
  intros [= <-]. exists importer. split; [done|]. simpl. split.
  - intros ->. simpl. split; [apply backslashes_no_slash|].
    split; [apply backslashes_length | apply backslashes_without_slash].
  - intros Hplatform. by destruct (String.eqb_spec platform "win32").
Qed.

(** X8. Where the app-boundary policy does not apply, and so always in
    phase other, what [resolve] returns carries the answer of the host as
    it is, as the error of a not-found resolution or as the result of a
    found one that is not virtual. *)
Theorem resolve_passes_host_answer self request g :
  let result := hostResult self request g in
  phase self = other ∨ ¬ boundaryApplies self result →
  ∃ resolution,
    resolve self request g = (Normal resolution, finalGlobal self request g)
    ∧ (resolution = not_found (OnResolveResult.of_resolved result)
       ∨ ∃ filename,
           resolution
           = found filename (OnResolveResult.of_resolved result) None).
Proof.
  intros result Hpasses. rewrite resolve_run. fold result.
  eexists. split; [reflexivity|].
  destruct (_ || _); [by left|].
  destruct (boundaryTest self result) eqn:Htest; [|right; by eexists].
  apply boundaryTest_spec in Htest. destruct Hpasses as [Hphase | Hnot].
  - destruct Htest as [Hbundling _]. congruence.
  - done.
Qed.

Lemma resolve_final_entry self request g :
  Channel.entries (resolve self request g).2
  !! ModuleRequest.specifier request = None.
Proof.
  rewrite resolve_run. cbn [snd]. unfold finalGlobal.
  rewrite entries_readStatus. apply lookup_delete_eq.
Qed.

(** X9. When another call of [resolve] for the same specifier has run to
    its end by the time the host answers, and nothing was written since, the
    status read back is [pending], whatever was written for the specifier:
    the other call consumed it.  A found resolution then reports the path
    of the host's answer. *)
Theorem resolve_after_interleaved_resolve
    (outer inner : EsBuildRequestAdapter.t)
    (request request' : ModuleRequest.t) (g g' : Channel.Global) :
  let result := hostResult outer request g in
  ModuleRequest.specifier request' = ModuleRequest.specifier request →
  (hostCall outer request g).2 = (resolve inner request' g').2 →
  consumedStatus outer request g = Channel.pending
  ∧ (ResolveResult.errors result = [] → ¬ boundaryApplies outer result →
     (resolve outer request g).1
     = Normal (found (ResolveResult.path result)
                 (OnResolveResult.of_resolved result) None)).
Proof.
  intros result Hspecifier Hhost.
  assert (consumedStatus outer request g = Channel.pending) as Hstatus.
  { unfold consumedStatus.
    by rewrite readStatus_value, Hhost, <- Hspecifier, resolve_final_entry. }
  split; [done|]. intros Herrors Happlies.
  rewrite resolve_passes_through; [|done | by rewrite Hstatus | done].
  fold result. by rewrite Hstatus.
Qed.

(** X14. [virtualResponse] answers with a found resolution whose
    filename and path are the specifier of the virtual module, in namespace
    [embroider-virtual], and that carries the module.  That namespace is
    one [resolve] takes for its own: when, during bundling, the host
    answers without error in the namespace of a virtual response, for a
    path the app owns, and the status read back is not [not_found],
    [resolve] returns the externalized resolution. *)
Theorem resolve_externalizes_virtual_namespace self request
    (virtual : VirtualResponse.t) (bundler : EsBuildRequestAdapter.t)
    (asked : ModuleRequest.t) g :
  let answered := hostResult bundler asked g in
  phase bundler = bundling →
  ResolveResult.errors answered = [] →
  consumedStatus bundler asked g ≠ Channel.not_found →
  (∃ pkg, owner bundler answered = Some pkg
          ∧ Package.root pkg = PackageCache.appRoot (packageCache bundler)) →
  ∃ result,
    virtualResponse self request virtual
    = found (VirtualResponse.specifier virtual) result (Some virtual)
    ∧ OnResolveResult.path result = Some (VirtualResponse.specifier virtual)
    ∧ OnResolveResult.namespace result = Some "embroider-virtual"
    ∧ (OnResolveResult.namespace result
       = Some (ResolveResult.namespace answered) →
       ∃ name,
         resolve bundler asked g
         = (Normal (found name (externalized name) None),
            finalGlobal bundler asked g)).
Proof.
  intros answered Hphase Herrors Hstatus Howner.
  eexists. split; [reflexivity|]. split; [done|]. split; [done|].
  cbn [OnResolveResult.namespace]. intros [= Hnamespace].
  destruct (resolve_boundary bundler asked g) as (pkg & _ & _ & Hrun);
    [done | done | | by eexists].
  split; [done|]. split; [done|]. right. exists "virtual".
  exact (eq_sym Hnamespace).
Qed.

End AdapterLaws.

(** ** More runs *)
Section MoreRuns.
Import Esbuild Core EsBuildRequestAdapter Observe Scenario Declarations.

(** A call that carries a meta, to a build that answers with the meta it
    is asked with as the path. *)
Lemma create_then_resolve_asks_host_witness :
  let echo := {|
    PluginBuild.resolve := λ _ options g,
      (answer
         match
           Js.optchain
             (Js.optchain (ResolveOptions.pluginData options) "embroider")
             "meta"
         with
         | Js.Str meta => meta
         | _ => ""
         end
         true "file",
       g) |} in
  let args := {|
    CreateArgs.packageCache := packageCache;
    CreateArgs.phase := bundling;
    CreateArgs.build := echo;
    CreateArgs.kind := dynamic_import;
    CreateArgs.path := "lodash";
    CreateArgs.importer := Some "/app/app.js?import";
    CreateArgs.pluginData :=
      Js.Obj [("embroider", Js.Obj [("meta", Js.Str "from-the-app")])] |} in
  ∃ created filename result,
    create args = Some created
    ∧ (resolve (Created.adapter created) (Created.initialState created)
         None).1
      = Normal (found filename result None)
    ∧ filename = "from-the-app".
Proof.
  intros echo args.
  destruct (create args) as [created|] eqn:Hcreate; [|discriminate Hcreate].
  destruct (create_then_resolve_asks_host args created None Hcreate)
    as (importer & Himporter & resolution & Hrun & _ & Hfound).
  injection Himporter as <-.
  destruct Hfound as (filename & result & -> & _); [by_running..|].
  exists created, filename, result. split; [reflexivity|].
  rewrite Hrun. split; [reflexivity|].
  apply (f_equal fst) in Hrun. cbn [fst] in Hrun.
  injection Hcreate as <-. vm_compute in Hrun. by injection Hrun.
Defined.

(** The entry point of the app, a virtual module, asked for by a
    dependency during bundling. *)
Lemma resolve_externalizes_virtual_namespace_witness :
  let virtual :=
    {| VirtualResponse.specifier := "/app/-embroider-entrypoint.js" |} in
  let bundler :=
    adapter bundling
      (host (answer "/app/-embroider-entrypoint.js" false "embroider-virtual")
         []) in
  let asked :=
    request "./-embroider-entrypoint.js" "/app/node_modules/dep/index.js" in
  ∃ name,
    resolve bundler asked None
    = (Normal (found name (externalized name) None),
       finalGlobal bundler asked None).
Proof.
  intros virtual bundler asked.
  destruct (resolve_externalizes_virtual_namespace bundler asked virtual
              bundler asked None)
    as (result & Hvirtual & _ & Hnamespace & Hresolve).
  - reflexivity.
  - reflexivity.
  - by_running.
  - exists appPackage. split; by_running.
  - apply Hresolve. exact Hnamespace.
Defined.

(** An importer as vite gives it on Windows. *)
Lemma create_fromFile_separators_witness :
  let args := {|
    CreateArgs.packageCache := packageCache;
    CreateArgs.phase := other;
    CreateArgs.build := host (answer "lodash" true "file") [];
    CreateArgs.kind := import_statement;
    CreateArgs.path := "lodash";
    CreateArgs.importer := Some "C:/app/app.js";
    CreateArgs.pluginData := Js.Undefined |} in
  ∃ created,
    @create Windows.imports args = Some created
    ∧ ¬ In "/"%char
          (list_ascii_of_string
             (ModuleRequest.fromFile (Created.initialState created))).
Proof.
  intros args.
  destruct (@create Windows.imports args) as [created|] eqn:Hcreate;
    [|discriminate Hcreate].
  exists created. split; [reflexivity|].
  destruct (@create_fromFile_separators Windows.imports args created Hcreate)
    as (importer & _ & Hwindows & _).
  exact (proj1 (Hwindows eq_refl)).
Defined.

(** A host error in phase other. *)
Lemma resolve_passes_host_answer_witness :
  let failed := {|
    ResolveResult.errors :=
      [ {| Esbuild.text := "Could not resolve"; rest := Js.Undefined |} ];
    ResolveResult.warnings := [];
    ResolveResult.path := "";
    ResolveResult.external := false;
    ResolveResult.sideEffects := false;
    ResolveResult.namespace := "";
    ResolveResult.suffix := "";
    ResolveResult.pluginData := Js.Undefined |} in
  let self := adapter other (host failed []) in
  let request := request "lodash/missing" "/app/app.js" in
  phase self = other
  ∧ ∃ resolution,
      (resolve self request None).1 = Normal resolution
      ∧ (resolution = not_found (OnResolveResult.of_resolved failed)
         ∨ ∃ filename,
             resolution
             = found filename (OnResolveResult.of_resolved failed) None).
Proof.
  intros failed self request. split; [reflexivity|].
  destruct (resolve_passes_host_answer self request None (or_introl eq_refl))
    as (resolution & Hrun & Hshape).
  exists resolution. rewrite Hrun. split; [reflexivity | exact Hshape].
Defined.

(** Two calls for one specifier: the inner one, from another importer,
    runs while the outer one waits for the host, and takes the filename the
    rollup plugin wrote. *)
Lemma resolve_after_interleaved_resolve_witness :
  let written := "/app/node_modules/lodash/index.js" in
  let inner :=
    adapter other
      (host (answer "lodash" true "file") [("lodash", Channel.found written)]) in
  let outer :=
    adapter other
      (Interleaved.hostRunning inner
         (request "lodash" "/app/node_modules/dep/other.js")
         (answer "lodash" true "file")) in
  let request := request "lodash" "/app/node_modules/dep/index.js" in
  (resolve inner request None).1
  = Normal (found written
              (OnResolveResult.of_resolved (answer "lodash" true "file"))
              None)
  ∧ consumedStatus outer request None = Channel.pending
  ∧ (resolve outer request None).1
    = Normal (found "lodash"
                (OnResolveResult.of_resolved (answer "lodash" true "file"))
                None).
Proof.
  intros written inner outer request.
  split; [by_running|].
  destruct (resolve_after_interleaved_resolve outer inner request
              (Scenario.request "lodash" "/app/node_modules/dep/other.js")
              None (Channel.requestStatus "lodash" None)
              eq_refl eq_refl) as [Hstatus Hrun].
  split; [exact Hstatus|].
  apply Hrun; [reflexivity|]. by intros [Hphase _].
Defined.

(** The imports of the plugin's own test. *)
Example fixDeclarations_static_import :
  text (fixDeclarations (units "import foo from './foo.gts';"))
  = "import foo from './foo';".
Proof. by_running. Qed.

Example fixDeclarations_ts_import_kept :
  text (fixDeclarations (units "import baz from './baz.ts';"))
  = "import baz from './baz.ts';".
Proof. by_running. Qed.

(** Only the last [.gts] goes, so a second pass can find more. *)
Example fixDeclarations_twice :
  text (fixDeclarations (units "from 'a.gts.gts'")) = "from 'a.gts'"
  ∧ text (fixDeclarations (fixDeclarations (units "from 'a.gts.gts'")))
    = "from 'a'".
Proof. split; by_running. Qed.

(** The import of the plugin's own test, between double quotes (code
    unit 34) and after a tab and a line feed. *)
Lemma fixDeclarations_import_witness :
  let before := units "import foo " in
  let input :=
    (units "from" ++ [9; 10]%N ++ 34%N :: units "./foo"
       ++ units ".gts" ++ 34%N :: units ";")%list in
  isImport (units "./foo") (units ";") input
  ∧ occurs (units "from") (before ++ units "fro") = false
  ∧ Declarations.text (fixDeclarations (before ++ input))
    = "import foo from './foo';".
Proof.
  intros before input.
  assert (isImport (units "./foo") (units ";") input) as Himport.
  { exists [9; 10]%N, 34%N, 34%N. repeat split; by_running. }
  assert (occurs (units "from") (before ++ units "fro") = false) as Hnone
    by by_running.
  split; [exact Himport|]. split; [exact Hnone|].
  rewrite (fixDeclarations_import before input _ _ Himport Hnone). by_running.
Defined.

(** The type of a dynamic import holds no [from]. *)
Lemma fixDeclarations_unchanged_witness :
  let content := units "bar: Promise<typeof import('./bar.gts')>;" in
  occurs (units "from") content = false
  ∧ fixDeclarations content = content.
Proof.
  intros content.
  assert (occurs (units "from") content = false) as Hnone by by_running.
  split; [exact Hnone|].
  exact (fixDeclarations_unchanged content (or_introl Hnone)).
Defined.

End MoreRuns.

(** ** The adapter with collaborators that can fail *)
Section FallibleFacts.
Import Esbuild Core.

(** With collaborators that answer, the adapter is the one above. *)
Lemma resolve_of_answering `{Imports} (self : EsBuildRequestAdapter.t)
    (request : ModuleRequest.t) (g : Channel.Global) :
  @Fallible.resolve (Answering.imports _) (Answering.adapter self) request g
  = EsBuildRequestAdapter.resolve self request g.
Proof.
  unfold Fallible.resolve, EsBuildRequestAdapter.resolve.
  unfold mbind, Eff_bind, exec, call, mret, Eff_ret, Fallible.attempt.
  simpl.
  change (Fallible.resolveOptions (Answering.adapter self) request)
    with (EsBuildRequestAdapter.resolveOptions self request).
  destruct (PluginBuild.resolve _ _ _ _) as [result g1]. simpl.
  destruct (Channel.readStatus _ g1) as [status g2]. simpl.
  destruct (_ || _); [done|].
  destruct (EsBuildRequestAdapter.phase self); [|done].
  destruct (PackageCache.ownerOfFile _ _) as [pkg|]; simpl; [|done].
  destruct (_ && _); [|done].
  by destruct (Js.truthy_opt _).
Qed.

Context `{Fallible.Imports}.

(** C5, amended. [resolve] raises no error of its own.  When the promise
    of [build.resolve] is rejected, [resolve] ends with that rejection.
    When the host answers, [resolve] returns a not-found resolution exactly
    when the host reported errors or the status read back is [not_found],
    and that resolution carries the host's answer; it ends with an error
    only past that guard in phase bundling, when [ownerOfFile],
    [packageName] or [externalName] throws, and then with that error; where
    they answer it returns a resolution. *)
Theorem resolve_fails_only_as_collaborators (self : Fallible.t)
    (request : ModuleRequest.t) (g : Channel.Global) :
  let specifier := ModuleRequest.specifier request in
  let asked :=
    Fallible.PluginBuild.resolve (Fallible.context self) specifier
      (Fallible.resolveOptions self request)
      (Channel.requestStatus specifier g) in
  match asked.1 with
  | Throw e => Fallible.resolve self request g = (Throw e, asked.2)
  | Normal result =>
      let status := (Channel.readStatus specifier asked.2).1 in
      let owner :=
        Fallible.PackageCache.ownerOfFile (Fallible.packageCache self)
          (ResolveResult.path result) in
      ∃ completion,
        Fallible.resolve self request g
        = (completion, (Channel.readStatus specifier asked.2).2)
        ∧ ((∃ err, completion = Normal (not_found err))
           ↔ ResolveResult.errors result ≠ [] ∨ status = Channel.not_found)
        ∧ (ResolveResult.errors result ≠ [] ∨ status = Channel.not_found →
           completion = Normal (not_found (OnResolveResult.of_resolved result)))
        ∧ (∀ e, completion = Throw e →
             Fallible.phase self = bundling
             ∧ ResolveResult.errors result = []
             ∧ status ≠ Channel.not_found
             ∧ (owner = Throw e
                ∨ Fallible.packageName specifier = Throw e
                ∨ ∃ pkg,
                    owner = Normal (Some pkg)
                    ∧ Fallible.externalName (Package.packageJSON pkg) specifier
                      = Throw e))
        ∧ ((∀ e, owner ≠ Throw e) →
           (∀ e, Fallible.packageName specifier ≠ Throw e) →
           (∀ pkg e,
              Fallible.externalName (Package.packageJSON pkg) specifier
              ≠ Throw e) →
           ∃ resolution, completion = Normal resolution)
  end.
Proof.
  intros specifier asked.
  unfold Fallible.resolve.
  unfold mbind, Eff_bind, exec, call, mret, Eff_ret, Fallible.attempt.
  cbn [fst snd]. fold specifier. fold asked.
  destruct asked as [[result|e] g1]; cbn [fst snd]; [|done].
  destruct (Channel.readStatus specifier g1) as [status g2]. cbn [fst snd].
  destruct (_ || _) eqn:Hguard.
  { assert (ResolveResult.errors result ≠ [] ∨ status = Channel.not_found)
      as Hnot.
    { apply orb_true_iff in Hguard as [Hlen | Hnf].
      - left. intros Hnil. by rewrite Hnil in Hlen.
      - right. by apply is_not_found_spec. }
    eexists. split; [reflexivity|]. split; [split; [done | by eexists]|].
    split; [done|]. split; [done | by eexists]. }
  apply guard_spec in Hguard as [Herrors Hstatus].
  assert (¬ (ResolveResult.errors result ≠ [] ∨ status = Channel.not_found))
    as Hpast by tauto.
  destruct (Fallible.phase self) eqn:Hphase.
  2: { eexists. split; [reflexivity|].
       split; [split; [by intros [? [=]] | done]|].
       split; [done|]. split; [done | by eexists]. }
  destruct (Fallible.PackageCache.ownerOfFile _ _) as [pkg|e] eqn:Howner.
  2: { eexists. split; [reflexivity|].
       split; [split; [by intros [? [=]] | done]|].
       split; [done|]. split.
       - intros e' [= <-]. repeat split; try done. by left.
       - intros Hanswers. by destruct (Hanswers e). }
  destruct (_ && _) eqn:Htest.
  2: { eexists. split; [reflexivity|].
       split; [split; [by intros [? [=]] | done]|].
       split; [done|]. split; [done | by eexists]. }
  destruct (Fallible.packageName specifier) as [package|e] eqn:Hpackage.
  2: { eexists. split; [reflexivity|].
       split; [split; [by intros [? [=]] | done]|].
       split; [done|]. split.
       - intros e' [= <-]. repeat split; try done. right. by left.
       - intros _ Hanswers. by destruct (Hanswers e). }
  destruct (Js.truthy_opt package); cbn [negb].
  { eexists. split; [reflexivity|].
    split; [split; [by intros [? [=]] | done]|].
    split; [done|]. split; [done | by eexists]. }
  destruct pkg as [pkg|]; [|done]. cbn [member mret Eff_ret].
  destruct (Fallible.externalName _ _) as [external|e] eqn:Hexternal.
  - eexists. split; [reflexivity|].
    split; [split; [by intros [? [=]] | done]|].
    split; [done|]. split; [done | by eexists].
  - eexists. split; [reflexivity|].
    split; [split; [by intros [? [=]] | done]|].
    split; [done|]. split.
    + intros e' [= <-]. repeat split; try done. right. right. by exists pkg.
    + intros _ _ Hanswers. by destruct (Hanswers pkg e).
Qed.

End FallibleFacts.

(** ** Runs with collaborators that fail *)
Section FailingRuns.
Import Esbuild Core.

(** C5 as stated fails: [resolve] does not always yield a resolution.  The
    manifest of the app holds a number in its [exports]; a dependency
    imports a file of the app by a relative path during bundling; the host
    answers, and [externalName] throws. *)
Lemma resolve_throws_with_externalName :
  let self :=
    Failing.adapterOf Scenario.brokenPackage bundling
      (Answering.build
         (Scenario.host
            (Scenario.answer "/app/widgets/button.js" false "file") [])) in
  let request :=
    Scenario.request "./widgets/button" "/app/node_modules/dep/index.js" in
  (∃ e, (Fallible.resolve self request None).1 = Throw e)
  ∧ ¬ ∃ resolution, (Fallible.resolve self request None).1 = Normal resolution.
Proof.
  intros self request.
  assert (∃ e, (Fallible.resolve self request None).1 = Throw e)
    as [e Hthrows] by (eexists; by_running).
  split; [by exists e|]. intros [resolution Hreturns]. congruence.
Qed.

(** A rejected promise ends [resolve], and the specifier stays pending in
    the channel. *)
Example resolve_rejected_by_host :
  let self :=
    Failing.adapterOf Scenario.appPackage other
      (Failing.rejecting "The service was stopped") in
  let request := Scenario.request "lodash" "/app/app.js" in
  (Fallible.resolve self request None).1
  = Throw (Error "The service was stopped")
  ∧ Channel.entries (Fallible.resolve self request None).2 !! "lodash"
    = Some Channel.pending.
Proof. split; by_running. Qed.

(** The same import as in the failing run, the manifest in order. *)
Lemma resolve_fails_only_as_collaborators_witness :
  let self :=
    Failing.adapterOf Scenario.appPackage bundling
      (Answering.build
         (Scenario.host
            (Scenario.answer "/app/widgets/button.js" false "file") [])) in
  let request :=
    Scenario.request "./widgets/button" "/app/node_modules/dep/index.js" in
  ∃ completion,
    (Fallible.resolve self request None).1 = completion
    ∧ ¬ (∃ err, completion = Normal (not_found err)).
Proof.
  intros self request.
  pose proof (resolve_fails_only_as_collaborators self request None)
    as Hresolve.
  cbv zeta in Hresolve. cbn [fst Answering.build Fallible.context
    Failing.adapterOf Fallible.PluginBuild.resolve self] in Hresolve.
  destruct Hresolve as (completion & Hrun & Hiff & _).
  exists completion. rewrite Hrun. split; [reflexivity|].
  rewrite Hiff. intros [Herrors | Hstatus].
  - by apply Herrors.
  - vm_compute in Hstatus. discriminate Hstatus.
Defined.

End FailingRuns.
